(** * Deepsonnet: a verification development for [app.py]

    The chat front end of the repository is embedded shallowly: the
    operating-system, library and network calls made by [app.py] are the
    fields of a [World] record, Python exceptions are values of the type
    [exn], and every function of the source is a computation in a small
    state-and-exception monad whose state holds the trace of external calls
    and the store of Python list objects that hold chat histories.

    A text is the byte string of its UTF-8 encoding.  Python's [repr],
    which [gradio.Error] uses for its text, works on code points and asks
    the Unicode database which characters are printable; that table is a
    field of the world.

    The calls to the logger are left out: they return nothing and raise
    nothing.  The Gradio interface at the end of [app.py] only wires
    [handle_chat] to the widgets and is not part of the embedding. *)

From Stdlib Require Import ZArith NArith QArith Lia List Bool.
From Stdlib Require Import Strings.String Strings.Ascii Strings.Byte DecimalString.
From stdpp Require Import base option gmap.
Import ListNotations.

Local Open Scope string_scope.
Local Open Scope list_scope.

(* ===================================================================== *)
(** ** Base64 (Python's [base64.b64encode], RFC 4648 section 4)           *)
(* ===================================================================== *)

Module Base64.

(** The alphabet table of the standard encoding. *)
Definition alphabet : string :=
  "ABCDEFGHIJKLMNOPQRSTUVWXYZabcdefghijklmnopqrstuvwxyz0123456789+/".

Definition pad : ascii := "="%char.

(** The character of a 6-bit value. *)
Definition char_of (v : N) : ascii :=
  match String.get (N.to_nat v) alphabet with
  | Some c => c
  | None => pad
  end.

(** The 6-bit value of an alphabet character; [None] outside the
    alphabet (the padding character included). *)
Definition value_of (c : ascii) : option N :=
  let n := N_of_ascii c in
  if (65 <=? n)%N && (n <=? 90)%N then Some (n - 65)%N
  else if (97 <=? n)%N && (n <=? 122)%N then Some (n - 71)%N
  else if (48 <=? n)%N && (n <=? 57)%N then Some (n + 4)%N
  else if (n =? 43)%N then Some 62%N
  else if (n =? 47)%N then Some 63%N
  else None.

Definition is_pad (c : ascii) : bool := Ascii.eqb c pad.

(** The four characters of a 24-bit group. *)
Definition quad (n : N) : list ascii :=
  [ char_of (n / 262144)%N; char_of ((n / 4096) mod 64)%N;
    char_of ((n / 64) mod 64)%N; char_of (n mod 64)%N ].

(** Three input bytes give four characters; a final group of one or two
    bytes is filled with zero bits and padded with [=]. *)
Fixpoint encode (bs : list byte) : list ascii :=
  match bs with
  | [] => []
  | [a] =>
      let n := (Byte.to_N a * 65536)%N in
      firstn 2 (quad n) ++ [pad; pad]
  | [a; b] =>
      let n := (Byte.to_N a * 65536 + Byte.to_N b * 256)%N in
      firstn 3 (quad n) ++ [pad]
  | a :: b :: c :: rest =>
      let n := (Byte.to_N a * 65536 + Byte.to_N b * 256 + Byte.to_N c)%N in
      quad n ++ encode rest
  end.

(** [base64.b64encode(data).decode("utf-8")]: the output is ASCII. *)
Definition b64encode (bs : list byte) : string :=
  string_of_list_ascii (encode bs).

Definition byte_of (n : N) : byte :=
  match Byte.of_N (n mod 256)%N with
  | Some b => b
  | None => x00
  end.

(** The bytes of a 24-bit group, most significant first. *)
Definition triple (m : N) : list byte :=
  [ byte_of (m / 65536)%N; byte_of (m / 256)%N; byte_of m ].

(** Decoding of a padded text, four characters at a time (what
    [base64.b64decode(s, validate=True)] accepts): characters outside the
    alphabet, a length that is not a multiple of four and padding
    anywhere but at the end are errors. *)
Fixpoint decode (cs : list ascii) : option (list byte) :=
  match cs with
  | [] => Some []
  | c1 :: c2 :: c3 :: c4 :: rest =>
      match value_of c1, value_of c2 with
      | Some v1, Some v2 =>
          if is_pad c3 then
            match rest with
            | [] => if is_pad c4
                    then Some (firstn 1 (triple (v1 * 262144 + v2 * 4096)%N))
                    else None
            | _ :: _ => None
            end
          else
            match value_of c3 with
            | Some v3 =>
                if is_pad c4 then
                  match rest with
                  | [] => Some (firstn 2
                            (triple (v1 * 262144 + v2 * 4096 + v3 * 64)%N))
                  | _ :: _ => None
                  end
                else
                  match value_of c4 with
                  | Some v4 =>
                      match decode rest with
                      | Some bs =>
                          Some (triple (v1 * 262144 + v2 * 4096
                                        + v3 * 64 + v4)%N ++ bs)
                      | None => None
                      end
                  | None => None
                  end
            | None => None
            end
      | _, _ => None
      end
  | _ => None
  end.

Definition b64decode (s : string) : option (list byte) :=
  decode (list_ascii_of_string s).

(** The 6-bit values. *)
Definition sextets : list N := map N.of_nat (seq 0 64).

End Base64.

(* ===================================================================== *)
(** ** Python values used by [app.py]                                     *)
(* ===================================================================== *)

Module Py.

Local Open Scope string_scope.
Local Set Warnings "-register-all".

(** Three characters that the text of this file writes by their codes. *)
Definition squote : ascii := ascii_of_N 39.
Definition dquote : ascii := ascii_of_N 34.
Definition backslash : ascii := ascii_of_N 92.

(** [s.startswith(p)] *)
Definition startswith (s p : string) : bool := String.prefix p s.

Definition contains_char (c : ascii) (s : string) : bool :=
  existsb (Ascii.eqb c) (list_ascii_of_string s).

Definition hex_digit (n : N) : ascii :=
  match String.get (N.to_nat n) "0123456789abcdef" with
  | Some c => c
  | None => "0"%char
  end.

(** [n] in [width] hexadecimal digits. *)
Fixpoint hex (width : nat) (n : N) : string :=
  match width with
  | O => ""
  | S k => hex k (n / 16) ++ String (hex_digit (n mod 16)) ""
  end.

(** A text is kept as the bytes of its UTF-8 encoding; [repr] works on
    its code points. *)

Definition continuation (c : ascii) : bool :=
  let b := N_of_ascii c in (128 <=? b)%N && (b <? 192)%N.

(** The six low bits of a continuation byte. *)
Definition low6 (c : ascii) : N := (N_of_ascii c - 128)%N.

(** The code point encoded at the head of [cs] and the number of its
    bytes; [None] when [cs] does not start with the encoding of a code
    point (overlong forms, surrogates and values above U+10FFFF are not
    encodings). *)
Definition utf8_head (cs : list ascii) : option (N * nat) :=
  match cs with
  | [] => None
  | c0 :: rest =>
      let b0 := N_of_ascii c0 in
      if (b0 <? 128)%N then Some (b0, 1%nat)
      else if (b0 <? 194)%N then None
      else if (b0 <? 224)%N then
        match rest with
        | c1 :: _ =>
            if continuation c1
            then Some (((b0 - 192) * 64 + low6 c1)%N, 2%nat)
            else None
        | _ => None
        end
      else if (b0 <? 240)%N then
        match rest with
        | c1 :: c2 :: _ =>
            let cp := ((b0 - 224) * 4096 + low6 c1 * 64 + low6 c2)%N in
            if continuation c1 && continuation c2 && (2048 <=? cp)%N
               && negb ((55296 <=? cp)%N && (cp <? 57344)%N)
            then Some (cp, 3%nat)
            else None
        | _ => None
        end
      else if (b0 <? 245)%N then
        match rest with
        | c1 :: c2 :: c3 :: _ =>
            let cp := ((b0 - 240) * 262144 + low6 c1 * 4096
                       + low6 c2 * 64 + low6 c3)%N in
            if continuation c1 && continuation c2 && continuation c3
               && (65536 <=? cp)%N && (cp <? 1114112)%N
            then Some (cp, 4%nat)
            else None
        | _ => None
        end
      else None
  end.

(** An ASCII character of [repr(s)] inside the quote character [q]: the
    quote and the backslash are escaped, tab, newline and carriage return
    have their letter, the other control characters are written in
    hexadecimal. *)
Definition repr_ascii (q c : ascii) : string :=
  let n := N_of_ascii c in
  if Ascii.eqb c q || Ascii.eqb c backslash then String backslash (String c "")
  else if (n =? 9)%N then String backslash "t"
  else if (n =? 10)%N then String backslash "n"
  else if (n =? 13)%N then String backslash "r"
  else if (n <? 32)%N || (n =? 127)%N then String backslash ("x" ++ hex 2 n)
  else String c "".

Section Printable.

(** Whether a code point above ASCII is printable, [str.isprintable]: a
    table of the Unicode database of the interpreter. *)
Variable printable : N -> bool.

(** One character of [repr(s)]: the code point [cp], encoded by [bytes].
    Above ASCII a printable character is copied and another one is
    written in two, four or eight hexadecimal digits. *)
Definition repr_char (q : ascii) (cp : N) (bytes : list ascii) : string :=
  if (cp <? 128)%N then repr_ascii q (ascii_of_N cp)
  else if printable cp then string_of_list_ascii bytes
  else if (cp <? 256)%N then String backslash ("x" ++ hex 2 cp)
  else if (cp <? 65536)%N then String backslash ("u" ++ hex 4 cp)
  else String backslash ("U" ++ hex 8 cp).

(** The characters of [repr(s)] from the bytes [cs]; [skip] counts the
    bytes at the head of [cs] that belong to the character before.  A byte
    that starts no encoding is copied: such bytes are not a text. *)
Fixpoint repr_from (q : ascii) (skip : nat) (cs : list ascii) : string :=
  match cs with
  | [] => ""
  | c :: rest =>
      match skip with
      | S k => repr_from q k rest
      | O =>
          match utf8_head cs with
          | Some (cp, len) =>
              repr_char q cp (firstn len cs) ++ repr_from q (len - 1) rest
          | None => String c (repr_from q 0 rest)
          end
      end
  end.

(** [repr(s)] of a [str]: single quotes, unless the text has a single
    quote and no double quote. *)
Definition repr (s : string) : string :=
  let q := if contains_char squote s && negb (contains_char dquote s)
           then dquote else squote in
  String q (repr_from q 0 (list_ascii_of_string s) ++ String q "").

End Printable.

(** [str(n)] of an [int]. *)
Definition str_int (z : Z) : string := NilZero.string_of_int (Z.to_int z).

(** A parsed JSON document, as [response.json()] returns it.  A [float] is
    kept with the text that [repr] gives it; the fields of an object are
    the items of the dictionary in their order, with distinct keys. *)
Inductive json :=
| JNull
| JBool (b : bool)
| JInt (z : Z)
| JFloat (text : string)
| JStr (s : string)
| JArr (items : list json)
| JObj (fields : list (string * json)).

(** The name of the Python class of a JSON value. *)
Definition type_name (v : json) : string :=
  match v with
  | JNull => "NoneType"
  | JBool _ => "bool"
  | JInt _ => "int"
  | JFloat _ => "float"
  | JStr _ => "str"
  | JArr _ => "list"
  | JObj _ => "dict"
  end.

Section PrintableValues.

Variable printable : N -> bool.

(** [repr(v)] *)
Fixpoint repr_json (v : json) : string :=
  match v with
  | JNull => "None"
  | JBool true => "True"
  | JBool false => "False"
  | JInt z => str_int z
  | JFloat text => text
  | JStr s => repr printable s
  | JArr items => "[" ++ String.concat ", " (map repr_json items) ++ "]"
  | JObj fields =>
      "{" ++ String.concat ", "
               (map (fun kv => repr printable (fst kv) ++ ": "
                               ++ repr_json (snd kv)) fields)
          ++ "}"
  end.

(** [str(v)], which is what an f-string writes: a [str] is written as it
    is and every other value as its [repr]. *)
Definition str_json (v : json) : string :=
  match v with
  | JStr s => s
  | _ => repr_json v
  end.

End PrintableValues.

Fixpoint assoc (key : string) (fields : list (string * json)) : option json :=
  match fields with
  | [] => None
  | (k, v) :: rest => if String.eqb k key then Some v else assoc key rest
  end.

(** Exceptions, by class.  All of them derive from [Exception]. *)
Inductive exn :=
| ValueError (msg : string)
| AttributeError (msg : string)
| IndexError (msg : string)
| TypeError (msg : string)
| OSError (msg : string)
| GrError (message : string)                 (* gradio.Error *)
| APIConnectionError (msg : string)          (* anthropic *)
| RateLimitError (msg : string)              (* anthropic, an APIStatusError *)
| APIStatusError (status_code : Z) (msg : string) (body : string + json)
    (* anthropic; [body] is what [e.response.json()] does: [inl msg] when
       the body is not JSON and the call raises json.JSONDecodeError (a
       ValueError) with that text, [inr v] when it returns [v] *)
| OtherException (class_name msg : string).

(** [str(e)].  [gradio.Error] defines [__str__] as [repr(self.message)]:
    its text comes with quotes.  The other classes give their message. *)
Definition str (printable : N -> bool) (e : exn) : string :=
  match e with
  | ValueError msg | AttributeError msg | IndexError msg | TypeError msg
  | OSError msg | APIConnectionError msg | RateLimitError msg
  | APIStatusError _ msg _ | OtherException _ msg => msg
  | GrError message => repr printable message
  end.

(** The text of the [AttributeError] for a missing attribute. *)
Definition no_attribute (class_name attr : string) : string :=
  String squote class_name ++ String squote " object has no attribute "
  ++ String squote attr ++ String squote "".

(** [v.get(key, default)]: defined on a [dict] only. *)
Definition get (v : json) (key : string) (default : json) : exn + json :=
  match v with
  | JObj fields =>
      inr (match assoc key fields with Some x => x | None => default end)
  | _ => inl (AttributeError (no_attribute (type_name v) "get"))
  end.

(** [x or y] on an optional [str]: [None] and the empty text are false. *)
Definition str_or (x : option string) (y : string) : string :=
  match x with
  | Some (String c s) => String c s
  | _ => y
  end.

End Py.

(* ===================================================================== *)
(** ** The data of a chat turn and the outside world                      *)
(* ===================================================================== *)

Module App.
Import Py.

(** An uploaded file, [gr.components.File]: the program reads its
    [name], the path of the uploaded copy. *)
Record File := mkFile { name : string }.

(** The dictionary that [process_attachments] builds for a file. *)
Record attachment := mkAttachment {
  type : string;
  media_type : string;
  data : string
}.

Inductive role := user | assistant.

(** A message of the request.  [attachments] is the optional key of the
    dictionary: present, also when its list is empty, or absent. *)
Record message := mkMessage {
  msg_role : role;
  content : string;
  attachments : option (list attachment)
}.

(** The keyword arguments of [client.messages.create]. *)
Record request := mkRequest {
  model : string;
  max_tokens : Z;
  temperature : Q;
  messages : list message;
  timeout : Z
}.

Record content_block := mkBlock { text : string }.
Record response := mkResponse { resp_content : list content_block }.

(** A turn of the chat history, [(user_msg, bot_msg)]. *)
Abbreviation turn := (string * string)%type.

(** Everything outside the program.  A call either raises or returns. *)
Record World := mkWorld {
  (** [os.getenv(name)] *)
  os_getenv : string -> option string;
  (** [os.path.getsize(path)], in bytes *)
  os_path_getsize : string -> exn + Z;
  (** the first component of [mimetypes.guess_type(path)] *)
  mimetypes_guess_type : string -> option string;
  (** [open(path, "rb")] followed by [f.read()] *)
  read_binary : string -> exn + list byte;
  (** [Anthropic(api_key=key).messages.create(...)]: the network call *)
  messages_create : string -> request -> exn + response;
  (** [str.isprintable] on a code point above ASCII, which [repr] asks:
      the table of the Unicode database of the interpreter *)
  isprintable : N -> bool
}.

(** The external calls, in the order in which the program makes them. *)
Inductive event :=
| Getenv (var : string)
| Getsize (path : string)
| GuessType (path : string)
| ReadBinary (path : string)
| Create (api_key : string) (req : request).

(** The state of a run: the calls made so far and the list objects that
    hold chat histories, by address.  A history is passed to the program
    by reference, so the store tells a new list from an updated one. *)
Record state := mkState {
  trace : list event;
  store : gmap nat (list turn)
}.

(** Computations that change the state and raise or return. *)
Definition M (A : Type) : Type := state -> state * (exn + A).

Definition ret {A} (a : A) : M A := fun st => (st, inr a).
Definition raise {A} (e : exn) : M A := fun st => (st, inl e).
Definition lift {A} (r : exn + A) : M A := fun st => (st, r).

Definition bind {A B} (m : M A) (k : A -> M B) : M B :=
  fun st =>
    match m st with
    | (st', inr a) => k a st'
    | (st', inl e) => (st', inl e)
    end.

(** [try: m  except Exception as e: h e] *)
Definition try_except {A} (m : M A) (h : exn -> M A) : M A :=
  fun st =>
    match m st with
    | (st', inr a) => (st', inr a)
    | (st', inl e) => h e st'
    end.

Notation "'let*' x ':=' m 'in' k" := (bind m (fun x => k))
  (at level 10, x name, m at level 100, k at level 200, only parsing).

(** An external call is recorded, then raises or returns. *)
Definition call {A} (ev : event) (r : exn + A) : M A :=
  fun st => (mkState (trace st ++ [ev]) (store st), r).

(** Reading a list object. *)
Definition list_read (l : nat) : M (list turn) :=
  fun st =>
    match store st !! l with
    | Some v => (st, inr v)
    | None => (st, inl (OtherException "SystemError" "no such object"))
    end.

(** [l + v]: a new list object; [l] is read and left as it is. *)
Definition list_add (l : nat) (v : list turn) : M nat :=
  let* old := list_read l in
  fun st =>
    let l' := fresh (dom (store st)) in
    (mkState (trace st) (<[l' := old ++ v]> (store st)), inr l').

(** *** Constants of [app.py] *)

Definition MODEL_NAME : string := "claude-3-5-sonnet-20241022".
Definition MAX_TOKENS : Z := 8192.
Definition MAX_FILE_SIZE_MB : Z := 10.

(** A Python set; the program only asks whether some member is a prefix
    of a text, which does not depend on the order of the members. *)
Definition ALLOWED_MIME_TYPES : list string :=
  ["text/"; "image/"; "application/pdf"; "application/json";
   "application/msword"].

(** [any(mime_type.startswith(allowed) for allowed in prefixes)]: the
    generator is consumed up to the first true test, and a test on [None]
    raises. *)
Fixpoint any_startswith (mime_type : option string) (prefixes : list string)
  : exn + bool :=
  match prefixes with
  | [] => inr false
  | allowed :: rest =>
      match mime_type with
      | None =>
          inl (AttributeError (no_attribute "NoneType" "startswith"))
      | Some m =>
          if startswith m allowed then inr true
          else any_startswith mime_type rest
      end
  end.

(** How an f-string writes an optional [str]. *)
Definition format_opt (x : option string) : string :=
  match x with
  | Some s => s
  | None => "None"
  end.

Section Program.

Variable w : World.

(** [validate_file].  The size in MB is the exact quotient: a division
    by 2^20 is exact in binary floating point (and monotone where it
    rounds), so the test against the limit is the one of the source.  The
    type is guessed from the path alone. *)
Definition validate_file (file_path : string) : M unit :=
  let* size := call (Getsize file_path) (os_path_getsize w file_path) in
  let file_size : Q := (inject_Z size / inject_Z (1024 * 1024))%Q in
  if negb (Qle_bool file_size (inject_Z MAX_FILE_SIZE_MB)) then
    raise (ValueError ("File size exceeds " ++ str_int MAX_FILE_SIZE_MB
                       ++ "MB limit")%string)
  else
    let* mime_type := call (GuessType file_path)
                      (inr (mimetypes_guess_type w file_path)) in
    let* allowed := lift (any_startswith mime_type ALLOWED_MIME_TYPES) in
    if negb allowed then
      raise (ValueError ("Unsupported file type: "
                         ++ format_opt mime_type)%string)
    else ret tt.

(** The body of the [try] of [process_attachments], for one file. *)
Definition process_file (file : File) : M attachment :=
  let* _ := validate_file (name file) in
  let* mime_type := call (GuessType (name file))
                    (inr (mimetypes_guess_type w (name file))) in
  let* file_data := call (ReadBinary (name file)) (read_binary w (name file)) in
  ret (mkAttachment "base64"
         (str_or mime_type "application/octet-stream")
         (Base64.b64encode file_data)).

(** The loop of [process_attachments]; [acc] is the list
    [attachments] built so far. *)
Fixpoint process_loop (files : list File) (acc : list attachment)
  : M (list attachment) :=
  match files with
  | [] => ret acc
  | file :: rest =>
      let* a := try_except (process_file file)
             (fun e => raise (GrError ("File error: " ++ str (isprintable w) e)%string)) in
      process_loop rest (acc ++ [a])
  end.

Definition process_attachments (files : list File) : M (list attachment) :=
  process_loop files [].

(** [messages.extend([...])] for every turn of the history. *)
Definition extend_with (msgs : list message) (history : list turn)
  : list message :=
  fold_left
    (fun msgs t =>
       msgs ++ [mkMessage user (fst t) None; mkMessage assistant (snd t) None])
    history msgs.

(** The message of the [APIStatusError] handler:
    [e.response.json().get('error', {}).get('message', 'Unknown error')]
    written by an f-string. *)
Definition status_message (body : string + json) : exn + string :=
  match body with
  | inl msg => inl (ValueError msg)
  | inr v =>
      match get v "error" (JObj []) with
      | inl e => inl e
      | inr err =>
          match get err "message" (JStr "Unknown error") with
          | inl e => inl e
          | inr m => inr (str_json (isprintable w) m)
          end
      end
  end.

(** The [except] clauses of [chat_with_claude], in their order.
    [RateLimitError] is tested before its base class. *)
Definition api_handler (e : exn) : M string :=
  match e with
  | APIConnectionError _ =>
      raise (GrError "Connection error: Please check your internet connection")
  | RateLimitError _ =>
      raise (GrError "Rate limit exceeded: Please wait before sending new messages")
  | APIStatusError _ _ body =>
      let* m := lift (status_message body) in
      raise (GrError ("API error: " ++ m)%string)
  | _ => raise (GrError ("Unexpected error: " ++ str (isprintable w) e)%string)
  end.

(** [chat_with_claude].  [not api_key] holds for [None] and for the empty
    text.  The client object is built inside the [try] from the key alone,
    without any call to the outside; its [messages.create] is the call
    [Create].  [history] is the address of the list object: the program
    tests it, then iterates over it. *)
Definition chat_with_claude (message : string) (history : nat)
    (files : list File) : M string :=
  let* api_key := call (Getenv "ANTHROPIC_API_KEY")
                       (inr (os_getenv w "ANTHROPIC_API_KEY")) in
  match api_key with
  | None | Some "" =>
      raise (GrError "Configuration error: API key missing")
  | Some key =>
      try_except
        (let* attachments := process_attachments files in
         let messages := [mkMessage user message (Some attachments)] in
         let* turns := list_read history in
         let messages :=
           match turns with
           | [] => messages
           | _ :: _ => extend_with messages turns
           end in
         let req := mkRequest MODEL_NAME MAX_TOKENS 0%Q messages 30 in
         let* response := call (Create key req) (messages_create w key req) in
         match resp_content response with
         | [] => raise (IndexError "list index out of range")
         | block :: _ => ret (text block)
         end)
        api_handler
  end.

(** [handle_chat].  Both branches build [history + [(message, ...)]], a new
    list, and return it with a new empty list of files. *)
Definition handle_chat (message : string) (history : nat)
    (files : list File) : M (nat * list File) :=
  try_except
    (let* response := chat_with_claude message history files in
     let* updated_history := list_add history [(message, response)] in
     ret (updated_history, []))
    (fun e =>
       let error_msg := ("Error: " ++ str (isprintable w) e)%string in
       let* updated_history := list_add history [(message, error_msg)] in
       ret (updated_history, [])).

End Program.

End App.

(* ===================================================================== *)
(** ** Runs that only add to the trace                                    *)
(* ===================================================================== *)

Module Run.
Import Py App.

(** The state [st] after the further calls [evs]. *)
Definition record (st : state) (evs : list event) : state :=
  mkState (trace st ++ evs) (store st).

Definition init : state := mkState [] ∅.

(** The calls and the result of a run from the initial state. *)
Definition events {A} (m : M A) : list event := trace (fst (m init)).
Definition outcome {A} (m : M A) : exn + A := snd (m init).

(** A computation that does not look at the state: from every state it
    adds the same calls and gives the same result. *)
Definition steady {A} (m : M A) : Prop :=
  forall st, m st = (record st (events m), outcome m).

End Run.


(* ===================================================================== *)
(** ** File validation and encoding                                       *)
(* ===================================================================== *)

Module Files.
Import Py App Run.

(** The size limit in bytes. *)
Definition limit_bytes : Z := MAX_FILE_SIZE_MB * (1024 * 1024).

(** The MIME type [m] starts with a member of the allow-set. *)
Definition allow_listed (m : string) : bool :=
  existsb (startswith m) ALLOWED_MIME_TYPES.

(** The calls made for a file that is accepted and read. *)
Definition accepted_calls (f : File) : list event :=
  [Getsize (name f); GuessType (name f); GuessType (name f);
   ReadBinary (name f)].

(** The requests sent over the network in a trace. *)
Definition requests (t : list event) : list request :=
  flat_map (fun ev => match ev with Create _ req => [req] | _ => [] end) t.

(** The error that [process_attachments] raises for the exception [e] of
    a file. *)
Definition file_error (w : World) (e : exn) : exn :=
  GrError ("File error: " ++ str (isprintable w) e)%string.

End Files.

(* ===================================================================== *)
(** ** Vocabulary of the statements about a turn                          *)
(* ===================================================================== *)

Module Dispatch.
Import Py App.

(** The name of the environment variable of the credential. *)
Definition key_var : string := "ANTHROPIC_API_KEY".

(** The two messages of a turn of the history. *)
Definition turn_messages (t : turn) : list message :=
  [mkMessage user (fst t) None; mkMessage assistant (snd t) None].

(** The request that carries [message], the attachments and the turns,
    as [chat_with_claude] is shown to send it. *)
Definition request_for (message : string) (atts : list attachment)
    (turns : list turn) : request :=
  mkRequest MODEL_NAME MAX_TOKENS 0%Q
    (mkMessage user message (Some atts) :: flat_map turn_messages turns) 30.

(** The text recorded in the history for a result of the dispatch. *)
Definition reply_of (w : World) (r : exn + string) : string :=
  match r with
  | inr response => response
  | inl e => ("Error: " ++ str (isprintable w) e)%string
  end.

(** An error of the last clause of [chat_with_claude], the clause for
    every exception without a clause of its own. *)
Definition unclassified (e : exn) : bool :=
  match e with
  | GrError text => startswith text "Unexpected error: "
  | _ => false
  end.

End Dispatch.

(* ===================================================================== *)
(** ** The printable characters of Unicode                                *)
(* ===================================================================== *)

Module Unicode.

(** The ranges of the code points above ASCII that [str.isprintable]
    rejects: the control, format, surrogate, private use, unassigned and
    separator characters of Unicode 14.0, the database of CPython 3.11. *)
Definition nonprintable_ranges : list (N * N) :=
  [(128, 160); (173, 173); (888, 889); (896, 899); (907, 907); (909, 909);
   (930, 930); (1328, 1328); (1367, 1368); (1419, 1420); (1424, 1424);
   (1480, 1487); (1515, 1518); (1525, 1541); (1564, 1564); (1757, 1757);
   (1806, 1807); (1867, 1868); (1970, 1983); (2043, 2044); (2094, 2095);
   (2111, 2111); (2140, 2141); (2143, 2143); (2155, 2159); (2191, 2199);
   (2274, 2274); (2436, 2436); (2445, 2446); (2449, 2450); (2473, 2473);
   (2481, 2481); (2483, 2485); (2490, 2491); (2501, 2502); (2505, 2506);
   (2511, 2518); (2520, 2523); (2526, 2526); (2532, 2533); (2559, 2560);
   (2564, 2564); (2571, 2574); (2577, 2578); (2601, 2601); (2609, 2609);
   (2612, 2612); (2615, 2615); (2618, 2619); (2621, 2621); (2627, 2630);
   (2633, 2634); (2638, 2640); (2642, 2648); (2653, 2653); (2655, 2661);
   (2679, 2688); (2692, 2692); (2702, 2702); (2706, 2706); (2729, 2729);
   (2737, 2737); (2740, 2740); (2746, 2747); (2758, 2758); (2762, 2762);
   (2766, 2767); (2769, 2783); (2788, 2789); (2802, 2808); (2816, 2816);
   (2820, 2820); (2829, 2830); (2833, 2834); (2857, 2857); (2865, 2865);
   (2868, 2868); (2874, 2875); (2885, 2886); (2889, 2890); (2894, 2900);
   (2904, 2907); (2910, 2910); (2916, 2917); (2936, 2945); (2948, 2948);
   (2955, 2957); (2961, 2961); (2966, 2968); (2971, 2971); (2973, 2973);
   (2976, 2978); (2981, 2983); (2987, 2989); (3002, 3005); (3011, 3013);
   (3017, 3017); (3022, 3023); (3025, 3030); (3032, 3045); (3067, 3071);
   (3085, 3085); (3089, 3089); (3113, 3113); (3130, 3131); (3141, 3141);
   (3145, 3145); (3150, 3156); (3159, 3159); (3163, 3164); (3166, 3167);
   (3172, 3173); (3184, 3190); (3213, 3213); (3217, 3217); (3241, 3241);
   (3252, 3252); (3258, 3259); (3269, 3269); (3273, 3273); (3278, 3284);
   (3287, 3292); (3295, 3295); (3300, 3301); (3312, 3312); (3315, 3327);
   (3341, 3341); (3345, 3345); (3397, 3397); (3401, 3401); (3408, 3411);
   (3428, 3429); (3456, 3456); (3460, 3460); (3479, 3481); (3506, 3506);
   (3516, 3516); (3518, 3519); (3527, 3529); (3531, 3534); (3541, 3541);
   (3543, 3543); (3552, 3557); (3568, 3569); (3573, 3584); (3643, 3646);
   (3676, 3712); (3715, 3715); (3717, 3717); (3723, 3723); (3748, 3748);
   (3750, 3750); (3774, 3775); (3781, 3781); (3783, 3783); (3790, 3791);
   (3802, 3803); (3808, 3839); (3912, 3912); (3949, 3952); (3992, 3992);
   (4029, 4029); (4045, 4045); (4059, 4095); (4294, 4294); (4296, 4300);
   (4302, 4303); (4681, 4681); (4686, 4687); (4695, 4695); (4697, 4697);
   (4702, 4703); (4745, 4745); (4750, 4751); (4785, 4785); (4790, 4791);
   (4799, 4799); (4801, 4801); (4806, 4807); (4823, 4823); (4881, 4881);
   (4886, 4887); (4955, 4956); (4989, 4991); (5018, 5023); (5110, 5111);
   (5118, 5119); (5760, 5760); (5789, 5791); (5881, 5887); (5910, 5918);
   (5943, 5951); (5972, 5983); (5997, 5997); (6001, 6001); (6004, 6015);
   (6110, 6111); (6122, 6127); (6138, 6143); (6158, 6158); (6170, 6175);
   (6265, 6271); (6315, 6319); (6390, 6399); (6431, 6431); (6444, 6447);
   (6460, 6463); (6465, 6467); (6510, 6511); (6517, 6527); (6572, 6575);
   (6602, 6607); (6619, 6621); (6684, 6685); (6751, 6751); (6781, 6782);
   (6794, 6799); (6810, 6815); (6830, 6831); (6863, 6911); (6989, 6991);
   (7039, 7039); (7156, 7163); (7224, 7226); (7242, 7244); (7305, 7311);
   (7355, 7356); (7368, 7375); (7419, 7423); (7958, 7959); (7966, 7967);
   (8006, 8007); (8014, 8015); (8024, 8024); (8026, 8026); (8028, 8028);
   (8030, 8030); (8062, 8063); (8117, 8117); (8133, 8133); (8148, 8149);
   (8156, 8156); (8176, 8177); (8181, 8181); (8191, 8207); (8232, 8239);
   (8287, 8303); (8306, 8307); (8335, 8335); (8349, 8351); (8385, 8399);
   (8433, 8447); (8588, 8591); (9255, 9279); (9291, 9311); (11124, 11125);
   (11158, 11158); (11508, 11512); (11558, 11558); (11560, 11564);
   (11566, 11567); (11624, 11630); (11633, 11646); (11671, 11679);
   (11687, 11687); (11695, 11695); (11703, 11703); (11711, 11711);
   (11719, 11719); (11727, 11727); (11735, 11735); (11743, 11743);
   (11870, 11903); (11930, 11930); (12020, 12031); (12246, 12271);
   (12284, 12288); (12352, 12352); (12439, 12440); (12544, 12548);
   (12592, 12592); (12687, 12687); (12772, 12783); (12831, 12831);
   (42125, 42127); (42183, 42191); (42540, 42559); (42744, 42751);
   (42955, 42959); (42962, 42962); (42964, 42964); (42970, 42993);
   (43053, 43055); (43066, 43071); (43128, 43135); (43206, 43213);
   (43226, 43231); (43348, 43358); (43389, 43391); (43470, 43470);
   (43482, 43485); (43519, 43519); (43575, 43583); (43598, 43599);
   (43610, 43611); (43715, 43738); (43767, 43776); (43783, 43784);
   (43791, 43792); (43799, 43807); (43815, 43815); (43823, 43823);
   (43884, 43887); (44014, 44015); (44026, 44031); (55204, 55215);
   (55239, 55242); (55292, 63743); (64110, 64111); (64218, 64255);
   (64263, 64274); (64280, 64284); (64311, 64311); (64317, 64317);
   (64319, 64319); (64322, 64322); (64325, 64325); (64451, 64466);
   (64912, 64913); (64968, 64974); (64976, 65007); (65050, 65055);
   (65107, 65107); (65127, 65127); (65132, 65135); (65141, 65141);
   (65277, 65280); (65471, 65473); (65480, 65481); (65488, 65489);
   (65496, 65497); (65501, 65503); (65511, 65511); (65519, 65531);
   (65534, 65535); (65548, 65548); (65575, 65575); (65595, 65595);
   (65598, 65598); (65614, 65615); (65630, 65663); (65787, 65791);
   (65795, 65798); (65844, 65846); (65935, 65935); (65949, 65951);
   (65953, 65999); (66046, 66175); (66205, 66207); (66257, 66271);
   (66300, 66303); (66340, 66348); (66379, 66383); (66427, 66431);
   (66462, 66462); (66500, 66503); (66518, 66559); (66718, 66719);
   (66730, 66735); (66772, 66775); (66812, 66815); (66856, 66863);
   (66916, 66926); (66939, 66939); (66955, 66955); (66963, 66963);
   (66966, 66966); (66978, 66978); (66994, 66994); (67002, 67002);
   (67005, 67071); (67383, 67391); (67414, 67423); (67432, 67455);
   (67462, 67462); (67505, 67505); (67515, 67583); (67590, 67591);
   (67593, 67593); (67638, 67638); (67641, 67643); (67645, 67646);
   (67670, 67670); (67743, 67750); (67760, 67807); (67827, 67827);
   (67830, 67834); (67868, 67870); (67898, 67902); (67904, 67967);
   (68024, 68027); (68048, 68049); (68100, 68100); (68103, 68107);
   (68116, 68116); (68120, 68120); (68150, 68151); (68155, 68158);
   (68169, 68175); (68185, 68191); (68256, 68287); (68327, 68330);
   (68343, 68351); (68406, 68408); (68438, 68439); (68467, 68471);
   (68498, 68504); (68509, 68520); (68528, 68607); (68681, 68735);
   (68787, 68799); (68851, 68857); (68904, 68911); (68922, 69215);
   (69247, 69247); (69290, 69290); (69294, 69295); (69298, 69375);
   (69416, 69423); (69466, 69487); (69514, 69551); (69580, 69599);
   (69623, 69631); (69710, 69713); (69750, 69758); (69821, 69821);
   (69827, 69839); (69865, 69871); (69882, 69887); (69941, 69941);
   (69960, 69967); (70007, 70015); (70112, 70112); (70133, 70143);
   (70162, 70162); (70207, 70271); (70279, 70279); (70281, 70281);
   (70286, 70286); (70302, 70302); (70314, 70319); (70379, 70383);
   (70394, 70399); (70404, 70404); (70413, 70414); (70417, 70418);
   (70441, 70441); (70449, 70449); (70452, 70452); (70458, 70458);
   (70469, 70470); (70473, 70474); (70478, 70479); (70481, 70486);
   (70488, 70492); (70500, 70501); (70509, 70511); (70517, 70655);
   (70748, 70748); (70754, 70783); (70856, 70863); (70874, 71039);
   (71094, 71095); (71134, 71167); (71237, 71247); (71258, 71263);
   (71277, 71295); (71354, 71359); (71370, 71423); (71451, 71452);
   (71468, 71471); (71495, 71679); (71740, 71839); (71923, 71934);
   (71943, 71944); (71946, 71947); (71956, 71956); (71959, 71959);
   (71990, 71990); (71993, 71994); (72007, 72015); (72026, 72095);
   (72104, 72105); (72152, 72153); (72165, 72191); (72264, 72271);
   (72355, 72367); (72441, 72703); (72713, 72713); (72759, 72759);
   (72774, 72783); (72813, 72815); (72848, 72849); (72872, 72872);
   (72887, 72959); (72967, 72967); (72970, 72970); (73015, 73017);
   (73019, 73019); (73022, 73022); (73032, 73039); (73050, 73055);
   (73062, 73062); (73065, 73065); (73103, 73103); (73106, 73106);
   (73113, 73119); (73130, 73439); (73465, 73647); (73649, 73663);
   (73714, 73726); (74650, 74751); (74863, 74863); (74869, 74879);
   (75076, 77711); (77811, 77823); (78895, 82943); (83527, 92159);
   (92729, 92735); (92767, 92767); (92778, 92781); (92863, 92863);
   (92874, 92879); (92910, 92911); (92918, 92927); (92998, 93007);
   (93018, 93018); (93026, 93026); (93048, 93052); (93072, 93759);
   (93851, 93951); (94027, 94030); (94088, 94094); (94112, 94175);
   (94181, 94191); (94194, 94207); (100344, 100351); (101590, 101631);
   (101641, 110575); (110580, 110580); (110588, 110588); (110591, 110591);
   (110883, 110927); (110931, 110947); (110952, 110959); (111356, 113663);
   (113771, 113775); (113789, 113791); (113801, 113807); (113818, 113819);
   (113824, 118527); (118574, 118575); (118599, 118607); (118724, 118783);
   (119030, 119039); (119079, 119080); (119155, 119162); (119275, 119295);
   (119366, 119519); (119540, 119551); (119639, 119647); (119673, 119807);
   (119893, 119893); (119965, 119965); (119968, 119969); (119971, 119972);
   (119975, 119976); (119981, 119981); (119994, 119994); (119996, 119996);
   (120004, 120004); (120070, 120070); (120075, 120076); (120085, 120085);
   (120093, 120093); (120122, 120122); (120127, 120127); (120133, 120133);
   (120135, 120137); (120145, 120145); (120486, 120487); (120780, 120781);
   (121484, 121498); (121504, 121504); (121520, 122623); (122655, 122879);
   (122887, 122887); (122905, 122906); (122914, 122914); (122917, 122917);
   (122923, 123135); (123181, 123183); (123198, 123199); (123210, 123213);
   (123216, 123535); (123567, 123583); (123642, 123646); (123648, 124895);
   (124903, 124903); (124908, 124908); (124911, 124911); (124927, 124927);
   (125125, 125126); (125143, 125183); (125260, 125263); (125274, 125277);
   (125280, 126064); (126133, 126208); (126270, 126463); (126468, 126468);
   (126496, 126496); (126499, 126499); (126501, 126502); (126504, 126504);
   (126515, 126515); (126520, 126520); (126522, 126522); (126524, 126529);
   (126531, 126534); (126536, 126536); (126538, 126538); (126540, 126540);
   (126544, 126544); (126547, 126547); (126549, 126550); (126552, 126552);
   (126554, 126554); (126556, 126556); (126558, 126558); (126560, 126560);
   (126563, 126563); (126565, 126566); (126571, 126571); (126579, 126579);
   (126584, 126584); (126589, 126589); (126591, 126591); (126602, 126602);
   (126620, 126624); (126628, 126628); (126634, 126634); (126652, 126703);
   (126706, 126975); (127020, 127023); (127124, 127135); (127151, 127152);
   (127168, 127168); (127184, 127184); (127222, 127231); (127406, 127461);
   (127491, 127503); (127548, 127551); (127561, 127567); (127570, 127583);
   (127590, 127743); (128728, 128732); (128749, 128751); (128765, 128767);
   (128884, 128895); (128985, 128991); (129004, 129007); (129009, 129023);
   (129036, 129039); (129096, 129103); (129114, 129119); (129160, 129167);
   (129198, 129199); (129202, 129279); (129620, 129631); (129646, 129647);
   (129653, 129655); (129661, 129663); (129671, 129679); (129709, 129711);
   (129723, 129727); (129734, 129743); (129754, 129759); (129768, 129775);
   (129783, 129791); (129939, 129939); (129995, 130031); (130042, 131071);
   (173792, 173823); (177977, 177983); (178206, 178207); (183970, 183983);
   (191457, 194559); (195102, 196607); (201547, 917759); (918000, 1114111)]%N.

Definition in_range (cp : N) (r : N * N) : bool :=
  (fst r <=? cp)%N && (cp <=? snd r)%N.

Definition printable (cp : N) : bool :=
  negb (existsb (in_range cp) nonprintable_ranges).

End Unicode.

(* ===================================================================== *)
(** ** Concrete worlds                                                    *)
(* ===================================================================== *)

Module Examples.
Import Py App.

(** The bytes of the text Hello and the first bytes of a PNG file. *)
Definition hello : list byte := [x48; x65; x6c; x6c; x6f].
Definition png : list byte := [x89; x50; x4e; x47].

(** The table of printable characters of the example worlds. *)
Definition sample_printable : N -> bool := Unicode.printable.

(** A text from the bytes of its UTF-8 encoding. *)
Definition text_of_bytes (bs : list N) : string :=
  string_of_list_ascii (map ascii_of_N bs).

Definition no_such_file (path : string) : exn :=
  OSError ("[Errno 2] No such file or directory: "
           ++ repr sample_printable path)%string.

Definition sizes (path : string) : exn + Z :=
  if String.eqb path "notes.txt" then inr 5%Z
  else if String.eqb path "photo.png" then inr 4%Z
  else if String.eqb path "exact.txt" then inr 10485760%Z
  else if String.eqb path "big.txt" then inr 10485761%Z
  else if String.eqb path "data.xyz" then inr 100%Z
  else if String.eqb path "movie.mp4" then inr 100%Z
  else inl (no_such_file path).

Definition types (path : string) : option string :=
  if String.eqb path "notes.txt" then Some "text/plain"
  else if String.eqb path "photo.png" then Some "image/png"
  else if String.eqb path "exact.txt" then Some "text/plain"
  else if String.eqb path "big.txt" then Some "text/plain"
  else if String.eqb path "movie.mp4" then Some "video/mp4"
  else None.

Definition contents (path : string) : exn + list byte :=
  if String.eqb path "notes.txt" then inr hello
  else if String.eqb path "photo.png" then inr png
  else inl (no_such_file path).

Definition env_with_key (var : string) : option string :=
  if String.eqb var "ANTHROPIC_API_KEY" then Some "sk-test" else None.

Definition replies (reply : string) (key : string) (req : request)
  : exn + response :=
  inr (mkResponse [mkBlock reply]).

(** A world with a credential and a remote side that answers. *)
Definition w_ok : World :=
  mkWorld env_with_key sizes types contents (replies "Hi there")
    sample_printable.

(** The same world without the credential. *)
Definition w_no_key : World :=
  mkWorld (fun _ => None) sizes types contents (replies "Hi there")
    sample_printable.

(** A remote side whose first content block has an empty text. *)
Definition w_empty_reply : World :=
  mkWorld env_with_key sizes types contents (replies "") sample_printable.

(** A remote side that throttles. *)
Definition w_rate_limited : World :=
  mkWorld env_with_key sizes types contents
    (fun _ _ => inl (RateLimitError "Error code: 429")) sample_printable.

(** A remote side that answers with a status error; [body] is what
    [e.response.json()] does. *)
Definition w_status (body : string + json) : World :=
  mkWorld env_with_key sizes types contents
    (fun _ _ => inl (APIStatusError 529 "Error code: 529" body))
    sample_printable.

Definition overloaded : json :=
  JObj [("type", JStr "error");
        ("error", JObj [("type", JStr "overloaded_error");
                        ("message", JStr "Overloaded")])].

(** A state with one history object, at address 0, of one turn. *)
Definition st_one_turn : state :=
  mkState [] (<[0%nat := [("a", "b")]]> ∅).

(** A state with an empty history at address 0. *)
Definition st_fresh : state :=
  mkState [] (<[0%nat := []]> ∅).

End Examples.

(* ===================================================================== *)
(** ** Further worlds: failures of the file system and of the remote side *)
(* ===================================================================== *)

Module Failures.
Import Py App Examples.

(** A file that passes validation and cannot be opened. *)
Definition permission_denied (path : string) : exn :=
  OSError ("[Errno 13] Permission denied: "
           ++ repr sample_printable path)%string.

Definition sizes_locked (path : string) : exn + Z :=
  if String.eqb path "locked.txt" then inr 7%Z else sizes path.

Definition types_locked (path : string) : option string :=
  if String.eqb path "locked.txt" then Some "text/plain" else types path.

Definition contents_locked (path : string) : exn + list byte :=
  if String.eqb path "locked.txt" then inl (permission_denied path)
  else contents path.

Definition w_locked : World :=
  mkWorld env_with_key sizes_locked types_locked contents_locked
    (replies "Hi there") sample_printable.

(** A remote side that cannot be reached. *)
Definition w_offline : World :=
  mkWorld env_with_key sizes types contents
    (fun _ _ => inl (APIConnectionError "Connection error."))
    sample_printable.

(** A remote side whose response has no content block. *)
Definition w_empty_content : World :=
  mkWorld env_with_key sizes types contents
    (fun _ _ => inr (mkResponse [])) sample_printable.

(** A remote side that fails on the first request only: its answer depends
    on the number of messages of the request. *)
Definition w_flaky : World :=
  mkWorld env_with_key sizes types contents
    (fun _ req =>
       match messages req with
       | [_] => inl (RateLimitError "Error code: 429")
       | _ => inr (mkResponse [mkBlock "Hi again"])
       end)
    sample_printable.

(** The texts that the program shows for the two errors of the network. *)
Definition connection_text : string :=
  "Connection error: Please check your internet connection".
Definition rate_limit_text : string :=
  "Rate limit exceeded: Please wait before sending new messages".

(** A JSON value that is a dictionary. *)
Definition is_dict (v : json) : bool :=
  match v with
  | JObj _ => true
  | _ => false
  end.

(** A character that a base64 text may hold. *)
Definition base64_char (c : ascii) : bool :=
  Base64.is_pad c || match Base64.value_of c with Some _ => true | None => false end.

(** The conditions on a file under which it is processed with success. *)
Definition processable (w : World) (f : File) : Prop :=
  (exists size, os_path_getsize w (name f) = inr size /\
                (size <= Files.limit_bytes)%Z) /\
  (exists m, mimetypes_guess_type w (name f) = Some m /\
             Files.allow_listed m = true) /\
  (exists file_data, read_binary w (name f) = inr file_data).

End Failures.

(* ===================================================================== *)
(** ** Properties of Base64                                               *)
(* ===================================================================== *)

Module Base64Facts.
Import Base64.

Local Ltac Zify.zify_post_hook ::= Z.to_euclidean_division_equations.

Lemma sextets_complete (v : N) : (v < 64)%N -> In v sextets.
Proof.
  intros Hv. unfold sextets. apply in_map_iff.
  exists (N.to_nat v). split; [apply N2Nat.id|].
  apply in_seq. lia.
Qed.

Lemma value_of_char_of (v : N) : (v < 64)%N -> value_of (char_of v) = Some v.
Proof.
  intros Hv. apply sextets_complete in Hv.
  assert (Hall : forallb (fun u => match value_of (char_of u) with
                                   | Some u' => (u' =? u)%N
                                   | None => false
                                   end) sextets = true)
    by (vm_compute; reflexivity).
  rewrite forallb_forall in Hall. specialize (Hall v Hv).
  destruct (value_of (char_of v)) as [u'|]; [|discriminate].
  apply N.eqb_eq in Hall. now subst.
Qed.

Lemma is_pad_char_of (v : N) : (v < 64)%N -> is_pad (char_of v) = false.
Proof.
  intros Hv. apply sextets_complete in Hv.
  assert (Hall : forallb (fun u => negb (is_pad (char_of u))) sextets = true)
    by (vm_compute; reflexivity).
  rewrite forallb_forall in Hall. specialize (Hall v Hv).
  now apply negb_true_iff in Hall.
Qed.

Lemma byte_of_to_N (b : byte) : byte_of (Byte.to_N b) = b.
Proof.
  unfold byte_of. pose proof (Byte.to_N_bounded b) as Hb.
  rewrite N.mod_small by lia. now rewrite Byte.of_to_N.
Qed.

Lemma byte_of_mod (n : N) : byte_of (n mod 256) = byte_of n.
Proof. unfold byte_of. now rewrite N.Div0.mod_mod. Qed.

Lemma triple_bytes (a b c : byte) :
  triple (Byte.to_N a * 65536 + Byte.to_N b * 256 + Byte.to_N c)%N = [a; b; c].
Proof.
  pose proof (Byte.to_N_bounded a) as Ha.
  pose proof (Byte.to_N_bounded b) as Hb.
  pose proof (Byte.to_N_bounded c) as Hc.
  set (n := (Byte.to_N a * 65536 + Byte.to_N b * 256 + Byte.to_N c)%N).
  assert (H1 : (n / 65536 = Byte.to_N a)%N) by (subst n; lia).
  assert (H2 : ((n / 256) mod 256 = Byte.to_N b)%N) by (subst n; lia).
  assert (H3 : (n mod 256 = Byte.to_N c)%N) by (subst n; lia).
  unfold triple.
  rewrite <- (byte_of_mod (n / 256)), <- (byte_of_mod n), H1, H2, H3.
  now rewrite !byte_of_to_N.
Qed.

(** The four 6-bit values of a group put the group together again. *)
Lemma quad_values (n : N) :
  (n / 262144 * 262144 + (n / 4096) mod 64 * 4096
   + (n / 64) mod 64 * 64 + n mod 64 = n)%N.
Proof. lia. Qed.

Lemma decode_quad (n : N) (rest : list ascii) :
  (n < 16777216)%N ->
  decode (quad n ++ rest) =
    match decode rest with
    | Some bs => Some (triple n ++ bs)
    | None => None
    end.
Proof.
  intros Hn. unfold quad. cbn [app decode].
  rewrite !value_of_char_of, !is_pad_char_of by lia.
  now rewrite quad_values.
Qed.

Lemma decode_last1 (a : byte) :
  decode (firstn 2 (quad (Byte.to_N a * 65536)) ++ [pad; pad]) = Some [a].
Proof.
  pose proof (Byte.to_N_bounded a) as Ha.
  unfold quad. cbn [firstn app decode].
  rewrite !value_of_char_of by lia.
  change (is_pad pad) with true. cbn iota.
  replace (_ + _)%N with (Byte.to_N a * 65536 + Byte.to_N x00 * 256
                          + Byte.to_N x00)%N
    by (change (Byte.to_N x00) with 0%N; lia).
  now rewrite triple_bytes.
Qed.

Lemma decode_last2 (a b : byte) :
  decode (firstn 3 (quad (Byte.to_N a * 65536 + Byte.to_N b * 256)) ++ [pad])
  = Some [a; b].
Proof.
  pose proof (Byte.to_N_bounded a) as Ha.
  pose proof (Byte.to_N_bounded b) as Hb.
  unfold quad. cbn [firstn app decode].
  rewrite !value_of_char_of, is_pad_char_of by lia.
  change (is_pad pad) with true. cbn iota.
  replace (_ + _)%N with (Byte.to_N a * 65536 + Byte.to_N b * 256
                          + Byte.to_N x00)%N
    by (change (Byte.to_N x00) with 0%N; lia).
  now rewrite triple_bytes.
Qed.

(** Induction on a byte string three bytes at a time. *)
Lemma bytes_ind3 (P : list byte -> Prop) :
  P [] -> (forall a, P [a]) -> (forall a b, P [a; b]) ->
  (forall a b c rest, P rest -> P (a :: b :: c :: rest)) ->
  forall bs, P bs.
Proof.
  intros H0 H1 H2 H3. fix IH 1.
  intros [|a [|b [|c rest]]];
    [exact H0 | exact (H1 a) | exact (H2 a b) | exact (H3 a b c rest (IH rest))].
Qed.

Lemma decode_encode (bs : list byte) : decode (encode bs) = Some bs.
Proof.
  induction bs as [|a|a b|a b c rest IH] using bytes_ind3.
  - reflexivity.
  - apply decode_last1.
  - apply decode_last2.
  - pose proof (Byte.to_N_bounded a) as Ha.
    pose proof (Byte.to_N_bounded b) as Hb.
    pose proof (Byte.to_N_bounded c) as Hc.
    cbn [encode]. cbv zeta.
    rewrite decode_quad by lia.
    now rewrite IH, triple_bytes.
Qed.

(** Round trip of the text produced by [b64encode]. *)
Lemma b64decode_b64encode (bs : list byte) :
  b64decode (b64encode bs) = Some bs.
Proof.
  unfold b64decode, b64encode.
  rewrite list_ascii_of_string_of_list_ascii. apply decode_encode.
Qed.

(** Every group of up to three bytes gives four characters. *)
Lemma encode_length (bs : list byte) :
  length (encode bs) = (4 * ((length bs + 2) / 3))%nat.
Proof.
  induction bs as [|a|a b|a b c rest IH] using bytes_ind3;
    try reflexivity.
  cbn [encode]. cbv zeta. unfold quad.
  cbn [app length]. rewrite IH.
  replace (S (S (S (length rest))) + 2)%nat
    with (1 * 3 + (length rest + 2))%nat by lia.
  rewrite Nat.div_add_l by lia. lia.
Qed.

End Base64Facts.

(* ===================================================================== *)
(** ** Properties of runs                                                 *)
(* ===================================================================== *)

Module RunFacts.
Import Py App Run.

Lemma record_nil st : record st [] = st.
Proof. destruct st. unfold record. cbn. now rewrite app_nil_r. Qed.

Lemma record_record st evs evs' :
  record (record st evs) evs' = record st (evs ++ evs').
Proof. unfold record. cbn. now rewrite app_assoc. Qed.

Lemma steady_intro {A} (m : M A) evs r :
  (forall st, m st = (record st evs, r)) -> steady m.
Proof.
  intros H st. unfold events, outcome. now rewrite (H init), H.
Qed.

Lemma steady_events {A} (m : M A) evs r :
  (forall st, m st = (record st evs, r)) -> events m = evs /\ outcome m = r.
Proof. intros H. unfold events, outcome. now rewrite (H init). Qed.

Lemma steady_ret {A} (a : A) : steady (ret a).
Proof. apply (steady_intro _ [] (inr a)). intros st. now rewrite record_nil. Qed.

Lemma steady_raise {A} (e : exn) : steady (@raise A e).
Proof. apply (steady_intro _ [] (inl e)). intros st. now rewrite record_nil. Qed.

Lemma steady_lift {A} (r : exn + A) : steady (lift r).
Proof. apply (steady_intro _ [] r). intros st. now rewrite record_nil. Qed.

Lemma steady_call {A} ev (r : exn + A) : steady (call ev r).
Proof. now apply (steady_intro _ [ev] r). Qed.

(** How a sequence runs when its first part is steady. *)
Lemma bind_steady {A B} (m : M A) (k : A -> M B) st :
  steady m ->
  bind m k st =
    match outcome m with
    | inr a => k a (record st (events m))
    | inl e => (record st (events m), inl e)
    end.
Proof. intros Hm. unfold bind. rewrite Hm. now destruct (outcome m). Qed.

Lemma try_except_steady {A} (m : M A) (h : exn -> M A) st :
  steady m ->
  try_except m h st =
    match outcome m with
    | inr a => (record st (events m), inr a)
    | inl e => h e (record st (events m))
    end.
Proof. intros Hm. unfold try_except. rewrite Hm. now destruct (outcome m). Qed.

Lemma steady_bind {A B} (m : M A) (k : A -> M B) :
  steady m -> (forall a, steady (k a)) -> steady (bind m k).
Proof.
  intros Hm Hk.
  destruct (outcome m) as [e|a] eqn:Hr.
  - apply (steady_intro _ (events m) (inl e)). intros st.
    now rewrite bind_steady, Hr.
  - apply (steady_intro _ (events m ++ events (k a)) (outcome (k a))).
    intros st. now rewrite bind_steady, Hr, Hk, record_record.
Qed.

Lemma steady_try_except {A} (m : M A) (h : exn -> M A) :
  steady m -> (forall e, steady (h e)) -> steady (try_except m h).
Proof.
  intros Hm Hh.
  destruct (outcome m) as [e|a] eqn:Hr.
  - apply (steady_intro _ (events m ++ events (h e)) (outcome (h e))).
    intros st. now rewrite try_except_steady, Hr, Hh, record_record.
  - apply (steady_intro _ (events m) (inr a)). intros st.
    now rewrite try_except_steady, Hr.
Qed.

(** The calls and the result of a sequence. *)
Lemma events_bind {A B} (m : M A) (k : A -> M B) :
  steady m -> (forall a, steady (k a)) ->
  events (bind m k) =
    match outcome m with
    | inr a => events m ++ events (k a)
    | inl _ => events m
    end.
Proof.
  intros Hm Hk. unfold events at 1. rewrite bind_steady by assumption.
  destruct (outcome m) as [e|a]; [reflexivity|].
  now rewrite Hk.
Qed.

Lemma outcome_bind {A B} (m : M A) (k : A -> M B) :
  steady m -> (forall a, steady (k a)) ->
  outcome (bind m k) =
    match outcome m with
    | inr a => outcome (k a)
    | inl e => inl e
    end.
Proof.
  intros Hm Hk. unfold outcome at 1. rewrite bind_steady by assumption.
  destruct (outcome m) as [e|a]; [reflexivity|].
  now rewrite Hk.
Qed.

Lemma events_try_except {A} (m : M A) (h : exn -> M A) :
  steady m -> (forall e, steady (h e)) ->
  events (try_except m h) =
    match outcome m with
    | inr _ => events m
    | inl e => events m ++ events (h e)
    end.
Proof.
  intros Hm Hh. unfold events at 1. rewrite try_except_steady by assumption.
  destruct (outcome m) as [e|a]; [|reflexivity].
  now rewrite Hh.
Qed.

Lemma outcome_try_except {A} (m : M A) (h : exn -> M A) :
  steady m -> (forall e, steady (h e)) ->
  outcome (try_except m h) =
    match outcome m with
    | inr a => inr a
    | inl e => outcome (h e)
    end.
Proof.
  intros Hm Hh. unfold outcome at 1. rewrite try_except_steady by assumption.
  destruct (outcome m) as [e|a]; [|reflexivity].
  now rewrite Hh.
Qed.

Lemma events_call {A} ev (r : exn + A) : events (call ev r) = [ev].
Proof. reflexivity. Qed.

Lemma outcome_call {A} ev (r : exn + A) : outcome (call ev r) = r.
Proof. reflexivity. Qed.

End RunFacts.


(* ===================================================================== *)
(** ** Properties of file validation and encoding                         *)
(* ===================================================================== *)

Module FileFacts.
Import Py App Run RunFacts Files.

(** The size test of [validate_file], on the number of bytes. *)
Lemma size_test (size : Z) :
  negb (Qle_bool (inject_Z size / inject_Z (1024 * 1024))
                 (inject_Z MAX_FILE_SIZE_MB))
  = (limit_bytes <? size)%Z.
Proof.
  unfold limit_bytes, MAX_FILE_SIZE_MB.
  change (1024 * 1024)%Z with 1048576%Z.
  unfold Qle_bool, Qdiv, Qmult, Qinv, inject_Z. cbn [Qnum Qden].
  rewrite Z.ltb_antisym. f_equal. f_equal; lia.
Qed.

Lemma any_startswith_some (m : string) (prefixes : list string) :
  any_startswith (Some m) prefixes = inr (existsb (startswith m) prefixes).
Proof.
  induction prefixes as [|p rest IH]; cbn; [reflexivity|].
  destruct (startswith m p); [reflexivity|exact IH].
Qed.

(** X6: the allow-set is a Python set, iterated in an order that the
    program does not choose: the test of a MIME type gives the same
    result, and the same exception on [None], in every order. *)
Lemma any_startswith_order (mime_type : option string)
    (prefixes prefixes' : list string) :
  Permutation prefixes prefixes' ->
  any_startswith mime_type prefixes = any_startswith mime_type prefixes'.
Proof.
  intros Hperm. destruct mime_type as [m|].
  - rewrite !any_startswith_some. f_equal.
    induction Hperm as [|p l l' _ IH|p q l|l l' l'' _ IH1 _ IH2]; cbn.
    + reflexivity.
    + now rewrite IH.
    + now destruct (startswith m p), (startswith m q).
    + now rewrite IH1.
  - destruct Hperm as [|p l l' _|p q l|l l' l'' H1 H2]; try reflexivity.
    destruct l as [|p l].
    + apply Permutation_nil in H1. subst l'.
      apply Permutation_nil in H2. now subst l''.
    + destruct l'' as [|q l'']; [|reflexivity].
      apply Permutation_sym, Permutation_nil in H2. subst l'.
      apply Permutation_sym, Permutation_nil in H1. discriminate.
Qed.

Section World.

Variable w : World.

(** What [validate_file] does, case by case. *)
Lemma validate_file_run (p : string) (st : state) :
  validate_file w p st =
    match os_path_getsize w p with
    | inl e => (record st [Getsize p], inl e)
    | inr size =>
        if (limit_bytes <? size)%Z then
          (record st [Getsize p],
           inl (ValueError "File size exceeds 10MB limit"))
        else
          match mimetypes_guess_type w p with
          | None =>
              (record st [Getsize p; GuessType p],
               inl (AttributeError (no_attribute "NoneType" "startswith")))
          | Some m =>
              if allow_listed m then
                (record st [Getsize p; GuessType p], inr tt)
              else
                (record st [Getsize p; GuessType p],
                 inl (ValueError ("Unsupported file type: " ++ m)%string))
          end
    end.
Proof.
  unfold validate_file, bind, call, lift, raise, ret.
  destruct (os_path_getsize w p) as [e|size]; [reflexivity|].
  rewrite size_test.
  destruct (limit_bytes <? size)%Z; [reflexivity|].
  cbn [trace store].
  destruct (mimetypes_guess_type w p) as [m|].
  - rewrite any_startswith_some. fold (allow_listed m).
    destruct (allow_listed m); unfold record; cbn; now rewrite <- app_assoc.
  - unfold record; cbn; now rewrite <- app_assoc.
Qed.

Lemma validate_file_steady (p : string) : steady (validate_file w p).
Proof.
  destruct (validate_file w p init) as [st0 r0] eqn:H0.
  apply (steady_intro _ (trace st0) r0). intros st.
  rewrite validate_file_run in H0 |- *.
  destruct (os_path_getsize w p) as [e|size].
  { now inversion H0. }
  destruct (limit_bytes <? size)%Z.
  { now inversion H0. }
  destruct (mimetypes_guess_type w p) as [m|].
  - destruct (allow_listed m); now inversion H0.
  - now inversion H0.
Qed.

(** A file passes validation exactly when its size is within the
    limit and its MIME type is resolved and allow-listed. *)
Lemma validate_file_accepts (p : string) :
  outcome (validate_file w p) = inr tt <->
  exists size m,
    os_path_getsize w p = inr size /\ (size <= limit_bytes)%Z /\
    mimetypes_guess_type w p = Some m /\ allow_listed m = true.
Proof.
  unfold outcome. rewrite validate_file_run. split.
  - destruct (os_path_getsize w p) as [e|size]; [discriminate|].
    destruct (Z.ltb_spec limit_bytes size) as [Hlt|Hle]; [discriminate|].
    destruct (mimetypes_guess_type w p) as [m|]; [|discriminate].
    destruct (allow_listed m) eqn:Hm; [|discriminate].
    intros _. now exists size, m.
  - intros (size & m & -> & Hle & -> & ->).
    destruct (Z.ltb_spec limit_bytes size) as [Hlt|_]; [lia|reflexivity].
Qed.

Lemma validate_file_accepts_events (p : string) :
  outcome (validate_file w p) = inr tt ->
  events (validate_file w p) = [Getsize p; GuessType p].
Proof.
  unfold outcome, events. rewrite validate_file_run.
  destruct (os_path_getsize w p) as [e|size]; [discriminate|].
  destruct (limit_bytes <? size)%Z; [discriminate|].
  destruct (mimetypes_guess_type w p) as [m|]; [|discriminate].
  now destruct (allow_listed m).
Qed.

(** A rejected file costs one or two calls, both about that file. *)
Lemma validate_file_rejects_events (p : string) (e : exn) :
  outcome (validate_file w p) = inl e ->
  events (validate_file w p) = [Getsize p] \/
  events (validate_file w p) = [Getsize p; GuessType p].
Proof.
  unfold outcome, events. rewrite validate_file_run.
  destruct (os_path_getsize w p) as [e'|size]; [now left|].
  destruct (limit_bytes <? size)%Z; [now left|].
  destruct (mimetypes_guess_type w p) as [m|]; [|now right].
  destruct (allow_listed m); now right.
Qed.

Lemma allow_listed_nonempty (m : string) : allow_listed m = true -> m <> "".
Proof. intros H ->. discriminate H. Qed.

Lemma process_file_steady (f : File) : steady (process_file w f).
Proof.
  unfold process_file.
  apply steady_bind; [apply validate_file_steady|]. intros _.
  apply steady_bind; [apply steady_call|]. intros mime_type.
  apply steady_bind; [apply steady_call|]. intros file_data.
  apply steady_ret.
Qed.

(** What [process_file] does after the validation of the file. *)
Lemma process_file_run (f : File) (st : state) :
  process_file w f st =
    match outcome (validate_file w (name f)) with
    | inl e => (record st (events (validate_file w (name f))), inl e)
    | inr _ =>
        (record st (accepted_calls f),
         match read_binary w (name f) with
         | inl e => inl e
         | inr file_data =>
             inr (mkAttachment "base64"
                    (str_or (mimetypes_guess_type w (name f))
                            "application/octet-stream")
                    (Base64.b64encode file_data))
         end)
    end.
Proof.
  unfold process_file.
  rewrite bind_steady by apply validate_file_steady.
  destruct (outcome (validate_file w (name f))) as [e|[]] eqn:Hv;
    [reflexivity|].
  rewrite (validate_file_accepts_events _ Hv).
  unfold bind, call, ret, record. cbn [trace store].
  rewrite <- !app_assoc. cbn [app].
  now destruct (read_binary w (name f)).
Qed.

(** A file is processed with success exactly when it passes validation
    and can be read; its attachment carries the resolved type. *)
Lemma process_file_success (f : File) (a : attachment) :
  outcome (process_file w f) = inr a <->
  exists m file_data,
    outcome (validate_file w (name f)) = inr tt /\
    mimetypes_guess_type w (name f) = Some m /\
    allow_listed m = true /\
    read_binary w (name f) = inr file_data /\
    a = mkAttachment "base64" m (Base64.b64encode file_data).
Proof.
  unfold outcome at 1. rewrite process_file_run. split.
  - destruct (outcome (validate_file w (name f))) as [e|[]] eqn:Hv;
      [discriminate|].
    destruct (proj1 (validate_file_accepts _) Hv)
      as (size & m & Hsize & Hle & Hm & Hallow).
    rewrite Hm. cbn [snd].
    destruct (read_binary w (name f)) as [e|file_data]; [discriminate|].
    intros [= <-]. exists m, file_data.
    repeat split; try assumption.
    destruct m as [|c m]; [discriminate Hallow|reflexivity].
  - intros (m & file_data & -> & Hm & Hallow & -> & ->).
    rewrite Hm. cbn [snd]. do 2 f_equal.
    destruct m as [|c m]; [discriminate Hallow|reflexivity].
Qed.

Lemma process_file_success_events (f : File) (a : attachment) :
  outcome (process_file w f) = inr a ->
  events (process_file w f) = accepted_calls f.
Proof.
  unfold outcome, events. rewrite process_file_run.
  now destruct (outcome (validate_file w (name f))).
Qed.

(** One round of the loop of [process_attachments]. *)
Lemma process_loop_cons (f : File) (rest : list File)
    (acc : list attachment) (st : state) :
  process_loop w (f :: rest) acc st =
    match outcome (process_file w f) with
    | inr a => process_loop w rest (acc ++ [a]) (record st (accepted_calls f))
    | inl e => (record st (events (process_file w f)), inl (file_error w e))
    end.
Proof.
  cbn [process_loop]. unfold bind.
  rewrite try_except_steady by apply process_file_steady.
  destruct (outcome (process_file w f)) as [e|a] eqn:Hf.
  - reflexivity.
  - now rewrite (process_file_success_events _ _ Hf).
Qed.

(** The files that are processed with success are passed one after the
    other, each adding its attachment at the end. *)
Lemma process_loop_accepted (pre : list File) (atts : list attachment) :
  Forall2 (fun f a => outcome (process_file w f) = inr a) pre atts ->
  forall rest acc st,
    process_loop w (pre ++ rest) acc st =
      process_loop w rest (acc ++ atts)
        (record st (flat_map accepted_calls pre)).
Proof.
  induction 1 as [|f a pre atts Hf _ IH]; intros rest acc st.
  - cbn. now rewrite app_nil_r, record_nil.
  - cbn [app]. rewrite process_loop_cons, Hf, IH, record_record.
    cbn [flat_map]. now rewrite <- app_assoc.
Qed.

(** A successful loop has processed every file with success. *)
Lemma process_loop_success (files : list File) :
  forall acc st st' atts,
    process_loop w files acc st = (st', inr atts) ->
    exists new,
      atts = acc ++ new /\
      Forall2 (fun f a => outcome (process_file w f) = inr a) files new.
Proof.
  induction files as [|f rest IH]; intros acc st st' atts Hrun.
  - cbn in Hrun. injection Hrun as _ <-. exists [].
    split; [now rewrite app_nil_r|constructor].
  - rewrite process_loop_cons in Hrun.
    destruct (outcome (process_file w f)) as [e|a] eqn:Hf; [discriminate|].
    destruct (IH _ _ _ _ Hrun) as (new & -> & Hall).
    exists (a :: new). split; [now rewrite <- app_assoc|].
    now constructor.
Qed.

Lemma process_loop_steady (files : list File) :
  forall acc, steady (process_loop w files acc).
Proof.
  induction files as [|f rest IH]; intros acc; cbn [process_loop].
  - apply steady_ret.
  - apply steady_bind; [|intros a; apply IH].
    apply steady_try_except; [apply process_file_steady|].
    intros e. apply steady_raise.
Qed.

Lemma process_attachments_steady (files : list File) :
  steady (process_attachments w files).
Proof. apply process_loop_steady. Qed.

(** When every file is processed with success, so is the list, with
    the calls of the files one after the other. *)
Lemma process_attachments_accepted (files : list File)
    (atts : list attachment) (st : state) :
  Forall2 (fun f a => outcome (process_file w f) = inr a) files atts ->
  process_attachments w files st
  = (record st (flat_map accepted_calls files), inr atts).
Proof.
  intros Hall. unfold process_attachments.
  rewrite <- (app_nil_r files) at 1.
  now rewrite (process_loop_accepted _ _ Hall).
Qed.

(** The first file that fails ends the loop: the files after it do not
    show in the result. *)
Lemma process_attachments_first_failure (pre post : list File) (f : File)
    (atts : list attachment) (e : exn) (st : state) :
  Forall2 (fun g a => outcome (process_file w g) = inr a) pre atts ->
  outcome (process_file w f) = inl e ->
  process_attachments w (pre ++ f :: post) st
  = (record st (flat_map accepted_calls pre ++ events (process_file w f)),
     inl (file_error w e)).
Proof.
  intros Hpre Hf. unfold process_attachments.
  rewrite (process_loop_accepted _ _ Hpre), process_loop_cons, Hf.
  now rewrite record_record.
Qed.

(** A file that fails validation fails the body of the loop with the
    same exception, after the calls of the validation alone. *)
Lemma process_file_rejected (f : File) (e : exn) :
  outcome (validate_file w (name f)) = inl e ->
  outcome (process_file w f) = inl e /\
  events (process_file w f) = events (validate_file w (name f)).
Proof.
  intros Hv. unfold outcome at 1, events at 1.
  rewrite process_file_run, Hv. split; reflexivity.
Qed.

Lemma Forall_processed (files : list File) :
  Forall (fun f => exists a, outcome (process_file w f) = inr a) files ->
  exists atts,
    Forall2 (fun f a => outcome (process_file w f) = inr a) files atts.
Proof.
  induction 1 as [|f files [a Ha] _ [atts IH]].
  - exists []. constructor.
  - exists (a :: atts). now constructor.
Qed.

Lemma requests_app (t1 t2 : list event) :
  requests (t1 ++ t2) = requests t1 ++ requests t2.
Proof. unfold requests. apply flat_map_app. Qed.

Lemma requests_accepted_calls (files : list File) :
  requests (flat_map accepted_calls files) = [].
Proof.
  induction files as [|f rest IH]; [reflexivity|].
  cbn [flat_map]. now rewrite requests_app, IH.
Qed.

Lemma requests_process_file (f : File) :
  requests (events (process_file w f)) = [].
Proof.
  unfold events. rewrite process_file_run.
  destruct (outcome (validate_file w (name f))) as [e|[]] eqn:Hv;
    [|reflexivity].
  cbn [fst record trace init app].
  now destruct (validate_file_rejects_events _ _ Hv) as [-> | ->].
Qed.

(** The processing of the files makes no network call. *)
Lemma requests_process_loop (files : list File) :
  forall acc, requests (events (process_loop w files acc)) = [].
Proof.
  induction files as [|f rest IH]; intros acc; [reflexivity|].
  unfold events. rewrite process_loop_cons.
  destruct (outcome (process_file w f)) as [e|a] eqn:Hf.
  - cbn [fst record trace init app]. apply requests_process_file.
  - rewrite process_loop_steady. cbn [fst record trace init app].
    rewrite requests_app. apply IH.
Qed.

End World.

End FileFacts.

(* ===================================================================== *)
(** ** Properties of the dispatch and of the turn handler                 *)
(* ===================================================================== *)

Module ChatFacts.
Import Py App Run RunFacts Files FileFacts Dispatch.

Lemma extend_with_flat_map (turns : list turn) :
  forall msgs, extend_with msgs turns = msgs ++ flat_map turn_messages turns.
Proof.
  unfold extend_with.
  induction turns as [|t rest IH]; intros msgs; cbn [fold_left flat_map].
  - now rewrite app_nil_r.
  - rewrite IH. now rewrite <- app_assoc.
Qed.

(** Every clause of the handler raises, and makes no call. *)
Lemma api_handler_raises (w : World) (e : exn) :
  exists e', forall st, api_handler w e st = (st, inl e').
Proof.
  destruct e; cbn [api_handler]; try (eexists; intros st; reflexivity).
  unfold bind, lift, raise.
  destruct (status_message w body) as [e'|m]; eexists; intros st; reflexivity.
Qed.

Lemma api_handler_gr_error (w : World) (m : string) (st : state) :
  api_handler w (GrError m) st
  = (st, inl (GrError ("Unexpected error: " ++ repr (isprintable w) m)%string)).
Proof. reflexivity. Qed.

Lemma length_turn_messages (turns : list turn) :
  length (flat_map turn_messages turns) = (2 * length turns)%nat.
Proof.
  induction turns as [|t rest IH]; [reflexivity|].
  cbn [flat_map turn_messages app length]. rewrite IH. lia.
Qed.

(** The turn at position [i] gives the messages at [2 i] and [2 i + 1]. *)
Lemma lookup_turn_messages (turns : list turn) :
  forall (i : nat) (t : turn),
    turns !! i = Some t ->
    flat_map turn_messages turns !! (2 * i)%nat
    = Some (mkMessage user (fst t) None) /\
    flat_map turn_messages turns !! (2 * i + 1)%nat
    = Some (mkMessage assistant (snd t) None).
Proof.
  induction turns as [|t0 rest IH]; intros i t Hi; [discriminate|].
  destruct i as [|i].
  - injection Hi as ->. split; reflexivity.
  - cbn in Hi. destruct (IH i t Hi) as [Hu Ha].
    replace (2 * S i)%nat with (S (S (2 * i))) by lia.
    replace (S (S (2 * i)) + 1)%nat with (S (S (2 * i + 1))) by lia.
    cbn [flat_map turn_messages app]. split; assumption.
Qed.

Lemma turn_messages_no_attachments (turns : list turn) (m : message) :
  In m (flat_map turn_messages turns) -> attachments m = None.
Proof.
  rewrite in_flat_map. intros (t & _ & [<- | [<- | []]]); reflexivity.
Qed.

Section World.

Variable w : World.

(** No credential: the configuration error, after the one look at the
    environment. *)
Lemma chat_without_key (message : string) (history : nat)
    (files : list File) (st : state) :
  os_getenv w key_var = None \/ os_getenv w key_var = Some "" ->
  chat_with_claude w message history files st
  = (record st [Getenv key_var],
     inl (GrError "Configuration error: API key missing")).
Proof.
  intros Hkey. unfold chat_with_claude, bind, call. fold key_var.
  now destruct Hkey as [-> | ->].
Qed.

(** The attachments fail: the catch-all clause wraps the file error. *)
Lemma chat_file_error (message : string) (history : nat)
    (files : list File) (key : string) (e : exn) (st : state) :
  os_getenv w key_var = Some key -> key <> "" ->
  outcome (process_attachments w files) = inl e ->
  chat_with_claude w message history files st
  = (record st (Getenv key_var :: events (process_attachments w files)),
     snd (api_handler w e st)).
Proof.
  intros Hkey Hne He. unfold chat_with_claude.
  rewrite bind_steady by apply steady_call.
  rewrite outcome_call, events_call. fold key_var. rewrite Hkey.
  destruct key as [|c key]; [contradiction|].
  unfold try_except. rewrite bind_steady by apply process_attachments_steady.
  rewrite He, record_record. cbn [app].
  destruct (api_handler_raises w e) as [e' He'].
  now rewrite !He'.
Qed.

(** The attachments succeed: one request is sent, and the reply or the
    error goes through the handler. *)
Lemma chat_sent (message : string) (history : nat) (turns : list turn)
    (files : list File) (key : string) (atts : list attachment)
    (st : state) :
  os_getenv w key_var = Some key -> key <> "" ->
  outcome (process_attachments w files) = inr atts ->
  store st !! history = Some turns ->
  let req := request_for message atts turns in
  let st' := record st (Getenv key_var :: events (process_attachments w files)
                        ++ [Create key req]) in
  chat_with_claude w message history files st
  = (st',
     match messages_create w key req with
     | inl e => snd (api_handler w e st')
     | inr resp =>
         match resp_content resp with
         | [] => snd (api_handler w (IndexError "list index out of range") st')
         | block :: _ => inr (text block)
         end
     end).
Proof.
  intros Hkey Hne Hatts Hturns req st'.
  unfold chat_with_claude.
  rewrite bind_steady by apply steady_call.
  rewrite outcome_call, events_call. fold key_var. rewrite Hkey.
  destruct key as [|c key]; [contradiction|].
  unfold try_except. rewrite bind_steady by apply process_attachments_steady.
  rewrite Hatts, record_record. cbn [app].
  unfold bind at 1, list_read. cbn [store record]. rewrite Hturns.
  assert (Hmsgs :
    match turns with
    | [] => [mkMessage user message (Some atts)]
    | _ :: _ => extend_with [mkMessage user message (Some atts)] turns
    end = mkMessage user message (Some atts) :: flat_map turn_messages turns).
  { destruct turns; [reflexivity|]. now rewrite extend_with_flat_map. }
  rewrite Hmsgs. fold (request_for message atts turns). fold req.
  rewrite bind_steady by apply steady_call.
  rewrite outcome_call, events_call.
  change (mkState _ (store st)) with
    (record st (Getenv key_var :: events (process_attachments w files))).
  rewrite record_record. cbn [app]. fold st'.
  destruct (messages_create w (String c key) req) as [e|resp].
  - destruct (api_handler_raises w e) as [e' He']. now rewrite !He'.
  - destruct (resp_content resp) as [|block rest].
    + unfold raise.
      destruct (api_handler_raises w (IndexError "list index out of range"))
        as [e' He'].
      now rewrite !He'.
    + reflexivity.
Qed.

(** A reply that is returned is the text of the first content block of
    the response to a request that was sent. *)
Lemma chat_success_inv (message : string) (history : nat)
    (turns : list turn) (files : list File) (st st' : state)
    (response : string) :
  store st !! history = Some turns ->
  chat_with_claude w message history files st = (st', inr response) ->
  exists key req resp block rest,
    In (Create key req) (trace st') /\
    messages_create w key req = inr resp /\
    resp_content resp = block :: rest /\
    response = text block.
Proof.
  intros Hturns Hrun.
  destruct (os_getenv w key_var) as [key|] eqn:Hkey.
  2:{ rewrite chat_without_key in Hrun by now left. discriminate. }
  destruct (String.eqb_spec key "") as [->|Hne].
  { rewrite chat_without_key in Hrun by now right. discriminate. }
  destruct (outcome (process_attachments w files)) as [e|atts] eqn:Hatts.
  { rewrite (chat_file_error _ _ _ _ _ _ Hkey Hne Hatts) in Hrun.
    destruct (api_handler_raises w e) as [e' He'].
    rewrite He' in Hrun. discriminate. }
  rewrite (chat_sent _ _ _ _ _ _ _ Hkey Hne Hatts Hturns) in Hrun.
  injection Hrun as <- Hres.
  exists key, (request_for message atts turns).
  destruct (messages_create w key (request_for message atts turns))
    as [e|resp] eqn:Hcreate.
  { destruct (api_handler_raises w e) as [e' He'].
    rewrite He' in Hres. discriminate. }
  destruct (resp_content resp) as [|block rest] eqn:Hcontent.
  { discriminate Hres. }
  injection Hres as <-.
  exists resp, block, rest. repeat split; try assumption.
  cbn [record trace]. apply in_or_app. right.
  right. apply in_or_app. right. now left.
Qed.

(** [chat_with_claude] leaves the store of list objects as it is. *)
Lemma chat_keeps_store (message : string) (history : nat)
    (files : list File) (st : state) :
  store (fst (chat_with_claude w message history files st)) = store st.
Proof.
  unfold chat_with_claude, bind at 1, call.
  set (st1 := mkState _ _).
  assert (Hst1 : store st1 = store st) by reflexivity.
  clearbody st1.
  destruct (os_getenv w "ANTHROPIC_API_KEY") as [[|c key]|];
    [exact Hst1| |exact Hst1].
  unfold try_except, bind at 1.
  rewrite (process_attachments_steady w files st1).
  set (st2 := record st1 _).
  assert (Hst2 : store st2 = store st) by (rewrite <- Hst1; reflexivity).
  clearbody st2.
  destruct (outcome (process_attachments w files)) as [e|atts].
  { destruct (api_handler_raises w e) as [e' He']. now rewrite He'. }
  unfold bind at 1, list_read.
  destruct (store st2 !! history) as [turns|].
  2:{ match goal with |- context [api_handler w ?e st2] =>
        destruct (api_handler_raises w e) as [e' He'] end.
      now rewrite He'. }
  unfold bind, call.
  match goal with |- context [mkState (trace st2 ++ ?evs) _] =>
    set (st3 := mkState (trace st2 ++ evs) (store st2)) end.
  assert (Hst3 : store st3 = store st) by exact Hst2.
  clearbody st3.
  match goal with |- context [messages_create w ?k ?r] =>
    destruct (messages_create w k r) as [e|resp] end.
  { destruct (api_handler_raises w e) as [e' He']. now rewrite He'. }
  destruct (resp_content resp) as [|block rest]; [|exact Hst3].
  unfold raise.
  match goal with |- context [api_handler w ?e st3] =>
    destruct (api_handler_raises w e) as [e' He'] end.
  now rewrite He'.
Qed.

(** [handle_chat] on a live history: the dispatch runs, then a new list
    object receives the old turns and the new one. *)
Lemma handle_chat_run (message : string) (history : nat)
    (turns : list turn) (files : list File) (st : state) :
  store st !! history = Some turns ->
  let run := chat_with_claude w message history files st in
  let l' := fresh (dom (store st)) in
  handle_chat w message history files st
  = (mkState (trace (fst run))
       (<[l' := turns ++ [(message, reply_of w (snd run))]]> (store st)),
     inr (l', [])).
Proof.
  intros Hturns run l'.
  pose proof (chat_keeps_store message history files st) as Hstore.
  fold run in Hstore.
  unfold handle_chat, try_except, bind at 1. fold run.
  destruct run as [st1 [e|response]]; cbn [fst snd] in *.
  - unfold bind at 1, list_add, bind, list_read, ret.
    rewrite Hstore, Hturns. cbn [trace store]. now rewrite Hstore.
  - unfold bind at 1, list_add, bind, list_read, ret.
    rewrite Hstore, Hturns. cbn [trace store]. now rewrite Hstore.
Qed.

End World.

End ChatFacts.

(* ===================================================================== *)
(** ** The statements of the specification                                *)
(* ===================================================================== *)

Module Claims.
Import Py App Run RunFacts Files FileFacts Dispatch ChatFacts Examples.

(** *** Validation of a file *)

(** C3, as amended: a file whose size is strictly above the limit of
    10 MB is rejected with a [ValueError], whatever its MIME type, which
    is not even looked up. *)
Theorem validate_file_rejects_oversize (w : World) (p : string) (size : Z)
    (st : state) :
  os_path_getsize w p = inr size ->
  (limit_bytes < size)%Z ->
  validate_file w p st
  = (record st [Getsize p], inl (ValueError "File size exceeds 10MB limit")).
Proof.
  intros Hsize Hlt. rewrite validate_file_run, Hsize.
  destruct (Z.ltb_spec limit_bytes size) as [_|Hle]; [reflexivity|lia].
Qed.

Lemma validate_file_rejects_oversize_witness :
  os_path_getsize w_ok "big.txt" = inr 10485761%Z /\
  (limit_bytes < 10485761)%Z /\
  validate_file w_ok "big.txt" st_fresh
  = (record st_fresh [Getsize "big.txt"],
     inl (ValueError "File size exceeds 10MB limit")).
Proof.
  split; [reflexivity|]. split; [reflexivity|].
  apply (validate_file_rejects_oversize w_ok "big.txt" 10485761);
    reflexivity.
Defined.

(** C3, as stated, fails: a text file of exactly 10 MB, a size at the
    threshold, passes validation. *)
Lemma validate_file_accepts_exact_limit :
  os_path_getsize w_ok "exact.txt" = inr 10485760%Z /\
  (limit_bytes <= 10485760)%Z /\
  validate_file w_ok "exact.txt" st_fresh
  = (record st_fresh [Getsize "exact.txt"; GuessType "exact.txt"], inr tt).
Proof.
  split; [reflexivity|]. split; [vm_compute; discriminate|].
  rewrite validate_file_run. reflexivity.
Qed.

(** C4, the case that fails: for a file within the limit whose MIME type
    is not resolved, [validate_file] raises the [AttributeError] of a
    method call on [None], not a [ValueError]. *)
Theorem validate_file_unresolved_type (w : World) (p : string) (size : Z)
    (st : state) :
  os_path_getsize w p = inr size ->
  (size <= limit_bytes)%Z ->
  mimetypes_guess_type w p = None ->
  validate_file w p st
  = (record st [Getsize p; GuessType p],
     inl (AttributeError "'NoneType' object has no attribute 'startswith'")).
Proof.
  intros Hsize Hle Hnone. rewrite validate_file_run, Hsize, Hnone.
  destruct (Z.ltb_spec limit_bytes size) as [Hlt|_]; [lia|reflexivity].
Qed.

Lemma validate_file_unresolved_type_witness :
  os_path_getsize w_ok "data.xyz" = inr 100%Z /\
  (100 <= limit_bytes)%Z /\
  mimetypes_guess_type w_ok "data.xyz" = None /\
  validate_file w_ok "data.xyz" st_fresh
  = (record st_fresh [Getsize "data.xyz"; GuessType "data.xyz"],
     inl (AttributeError "'NoneType' object has no attribute 'startswith'")).
Proof.
  split; [reflexivity|]. split; [vm_compute; discriminate|].
  split; [reflexivity|].
  apply (validate_file_unresolved_type w_ok "data.xyz" 100);
    [reflexivity | vm_compute; discriminate | reflexivity].
Defined.

(** The other case of C4 holds: a resolved MIME type that starts with no
    member of the allow-set is rejected with a [ValueError]. *)
Lemma validate_file_rejects_unlisted (w : World) (p : string) (size : Z)
    (m : string) (st : state) :
  os_path_getsize w p = inr size ->
  (size <= limit_bytes)%Z ->
  mimetypes_guess_type w p = Some m ->
  allow_listed m = false ->
  validate_file w p st
  = (record st [Getsize p; GuessType p],
     inl (ValueError ("Unsupported file type: " ++ m)%string)).
Proof.
  intros Hsize Hle Hm Hno. rewrite validate_file_run, Hsize, Hm, Hno.
  destruct (Z.ltb_spec limit_bytes size) as [Hlt|_]; [lia|reflexivity].
Qed.

(** *** Encoding of the attachments *)

Lemma accepted_files_processed (w : World) (files : list File)
    (contents : list (list byte)) :
  Forall2 (fun f file_data =>
             outcome (validate_file w (name f)) = inr tt /\
             read_binary w (name f) = inr file_data) files contents ->
  exists atts,
    Forall2 (fun f a => outcome (process_file w f) = inr a) files atts /\
    Forall2 (fun a file_data => data a = Base64.b64encode file_data)
            atts contents.
Proof.
  induction 1 as [|f file_data files contents [Hv Hread] _ IH].
  - exists []. split; constructor.
  - destruct IH as (atts & Hfiles & Hdata).
    destruct (proj1 (validate_file_accepts w _) Hv)
      as (size & m & Hsize & Hle & Hm & Hallow).
    exists (mkAttachment "base64" m (Base64.b64encode file_data) :: atts).
    split; constructor; try assumption; try reflexivity.
    apply process_file_success. now exists m, file_data.
Qed.

(** C6: when every file is under the size limit, has a resolved and
    allow-listed MIME type and can be read, every file passes validation
    and [process_attachments] returns, for each file in order, an
    attachment whose [data] decodes from base64 to the bytes of the
    file. *)
Theorem process_attachments_round_trip (w : World) (files : list File)
    (contents : list (list byte)) (st : state) :
  Forall2 (fun f file_data =>
             (exists size, os_path_getsize w (name f) = inr size /\
                           (size < limit_bytes)%Z) /\
             (exists m, mimetypes_guess_type w (name f) = Some m /\
                        allow_listed m = true) /\
             read_binary w (name f) = inr file_data) files contents ->
  Forall (fun f => snd (validate_file w (name f) st) = inr tt) files /\
  exists atts,
    process_attachments w files st
    = (record st (flat_map accepted_calls files), inr atts) /\
    Forall2 (fun a file_data => Base64.b64decode (data a) = Some file_data)
            atts contents.
Proof.
  intros Hall.
  assert (Hok : Forall2 (fun f file_data =>
             outcome (validate_file w (name f)) = inr tt /\
             read_binary w (name f) = inr file_data) files contents).
  { induction Hall as [|f file_data files contents H _ IH]; constructor;
      [|exact IH].
    destruct H as ((size & Hsize & Hlt) & (m & Hm & Hallow) & Hread).
    split; [|exact Hread].
    apply validate_file_accepts. exists size, m.
    repeat split; try assumption. lia. }
  split.
  - clear Hall. induction Hok as [|f file_data files contents [Hv _] _ IH];
      constructor; [|exact IH].
    rewrite validate_file_steady. exact Hv.
  - destruct (accepted_files_processed _ _ _ Hok) as (atts & Hfiles & Hdata).
    exists atts. split; [now apply process_attachments_accepted|].
    clear - Hdata.
    induction Hdata as [|a file_data atts contents Ha _ IH]; constructor;
      [|exact IH].
    rewrite Ha. apply Base64Facts.b64decode_b64encode.
Qed.

Lemma process_attachments_round_trip_witness :
  exists atts,
    process_attachments w_ok [mkFile "notes.txt"; mkFile "photo.png"] st_fresh
    = (record st_fresh
         (flat_map accepted_calls [mkFile "notes.txt"; mkFile "photo.png"]),
       inr atts) /\
    Forall2 (fun a file_data => Base64.b64decode (data a) = Some file_data)
            atts [hello; png].
Proof.
  apply (process_attachments_round_trip w_ok
           [mkFile "notes.txt"; mkFile "photo.png"] [hello; png] st_fresh).
  repeat constructor.
  - exists 5%Z. split; [reflexivity|vm_compute; reflexivity].
  - exists "text/plain". split; reflexivity.
  - exists 4%Z. split; [reflexivity|vm_compute; reflexivity].
  - exists "image/png". split; reflexivity.
Defined.

(** C10: when [process_attachments] succeeds, the [media_type] of every
    attachment is the resolved MIME type of its file, a non-empty text
    that starts with a member of the allow-set; it is never the value
    that the program keeps for an unresolved type. *)
Theorem process_attachments_media_types (w : World) (files : list File)
    (st st' : state) (atts : list attachment) :
  process_attachments w files st = (st', inr atts) ->
  Forall2 (fun f a =>
             exists m, mimetypes_guess_type w (name f) = Some m /\
                       m <> "" /\
                       allow_listed m = true /\
                       media_type a = m /\
                       media_type a <> "application/octet-stream")
          files atts.
Proof.
  intros Hrun.
  destruct (process_loop_success w _ _ _ _ _ Hrun) as (new & -> & Hall).
  cbn [app]. clear Hrun.
  induction Hall as [|f a files new Hf _ IH]; constructor; [|exact IH].
  apply process_file_success in Hf.
  destruct Hf as (m & file_data & _ & Hm & Hallow & _ & ->).
  exists m. repeat split; try assumption.
  - now apply allow_listed_nonempty.
  - cbn [media_type]. intros ->. discriminate Hallow.
Qed.

Lemma process_attachments_media_types_witness :
  Forall2 (fun f a =>
             exists m, mimetypes_guess_type w_ok (name f) = Some m /\
                       m <> "" /\
                       allow_listed m = true /\
                       media_type a = m /\
                       media_type a <> "application/octet-stream")
          [mkFile "notes.txt"; mkFile "photo.png"]
          [mkAttachment "base64" "text/plain" "SGVsbG8=";
           mkAttachment "base64" "image/png" "iVBORw=="].
Proof.
  apply (process_attachments_media_types w_ok
           [mkFile "notes.txt"; mkFile "photo.png"] st_fresh
           (record st_fresh
              (flat_map accepted_calls
                 [mkFile "notes.txt"; mkFile "photo.png"]))).
  vm_compute. reflexivity.
Defined.

(** *** The request *)

(** C8: with a credential and attachments that are processed with
    success, [chat_with_claude] sends one request whose message list
    starts with the new user message, carrying the text and the
    attachments, and goes on with a user message and an assistant message
    for every turn of the history, oldest turn first. *)
Theorem chat_builds_request (w : World) (message : string) (history : nat)
    (turns : list turn) (files : list File) (key : string)
    (atts : list attachment) (st : state) :
  os_getenv w key_var = Some key -> key <> "" ->
  outcome (process_attachments w files) = inr atts ->
  store st !! history = Some turns ->
  exists req,
    trace (fst (chat_with_claude w message history files st))
    = trace st ++ Getenv key_var :: events (process_attachments w files)
               ++ [Create key req] /\
    messages req
    = mkMessage user message (Some atts)
      :: flat_map (fun t => [mkMessage user (fst t) None;
                             mkMessage assistant (snd t) None]) turns.
Proof.
  intros Hkey Hne Hatts Hturns.
  exists (request_for message atts turns).
  rewrite (chat_sent _ _ _ _ _ _ _ _ Hkey Hne Hatts Hturns).
  split; reflexivity.
Qed.

Lemma chat_builds_request_witness :
  exists req,
    trace (fst (chat_with_claude w_ok "Hello" 0 [mkFile "notes.txt"]
                  st_one_turn))
    = trace st_one_turn
      ++ Getenv key_var
         :: events (process_attachments w_ok [mkFile "notes.txt"])
         ++ [Create "sk-test" req] /\
    messages req
    = mkMessage user "Hello"
        (Some [mkAttachment "base64" "text/plain" "SGVsbG8="])
      :: flat_map (fun t => [mkMessage user (fst t) None;
                             mkMessage assistant (snd t) None]) [("a", "b")].
Proof.
  apply (chat_builds_request w_ok "Hello" 0 [("a", "b")]
           [mkFile "notes.txt"] "sk-test"
           [mkAttachment "base64" "text/plain" "SGVsbG8="] st_one_turn).
  - reflexivity.
  - discriminate.
  - vm_compute. reflexivity.
  - vm_compute. reflexivity.
Defined.

(** C1, as amended: the message list of the request has exactly one
    leading user message, the new input, which is the only message that
    carries attachments; after it come, for every turn of the history in
    order, a user message and an assistant message. *)
Theorem outbound_messages_invariant (w : World) (message : string)
    (history : nat) (turns : list turn) (files : list File) (key : string)
    (atts : list attachment) (st : state) :
  os_getenv w key_var = Some key -> key <> "" ->
  outcome (process_attachments w files) = inr atts ->
  store st !! history = Some turns ->
  exists req,
    requests (trace (fst (chat_with_claude w message history files st)))
    = requests (trace st) ++ [req] /\
    messages req !! 0%nat = Some (mkMessage user message (Some atts)) /\
    length (messages req) = (1 + 2 * length turns)%nat /\
    (forall i u b,
        turns !! i = Some (u, b) ->
        messages req !! (1 + 2 * i)%nat = Some (mkMessage user u None) /\
        messages req !! (2 + 2 * i)%nat = Some (mkMessage assistant b None)) /\
    (forall i m,
        messages req !! i = Some m -> attachments m <> None -> i = 0%nat).
Proof.
  intros Hkey Hne Hatts Hturns.
  exists (request_for message atts turns).
  rewrite (chat_sent _ _ _ _ _ _ _ _ Hkey Hne Hatts Hturns).
  cbn [fst record trace request_for messages].
  split; [|split; [|split; [|split]]].
  - rewrite requests_app.
    change (Getenv key_var :: ?t) with ([Getenv key_var] ++ t).
    rewrite !requests_app.
    unfold process_attachments. rewrite requests_process_loop.
    reflexivity.
  - reflexivity.
  - cbn [length]. now rewrite length_turn_messages.
  - intros i u b Hi.
    destruct (lookup_turn_messages _ _ _ Hi) as [Hu Hb].
    replace (2 + 2 * i)%nat with (S (2 * i + 1)) by lia.
    split; assumption.
  - intros [|i] m Hm Hcarry; [reflexivity|].
    exfalso. apply Hcarry.
    apply (turn_messages_no_attachments turns).
    cbn in Hm. apply list_elem_of_In. eapply list_elem_of_lookup_2. exact Hm.
Qed.

Lemma outbound_messages_invariant_witness :
  exists req,
    requests (trace (fst (chat_with_claude w_ok "Hello" 0
                            [mkFile "notes.txt"] st_one_turn)))
    = requests (trace st_one_turn) ++ [req] /\
    messages req !! 0%nat
    = Some (mkMessage user "Hello"
              (Some [mkAttachment "base64" "text/plain" "SGVsbG8="])) /\
    length (messages req) = (1 + 2 * length [("a", "b")])%nat.
Proof.
  destruct (outbound_messages_invariant w_ok "Hello" 0 [("a", "b")]
              [mkFile "notes.txt"] "sk-test"
              [mkAttachment "base64" "text/plain" "SGVsbG8="] st_one_turn)
    as (req & Hsent & Hfirst & Hlen & _).
  - reflexivity.
  - discriminate.
  - vm_compute. reflexivity.
  - vm_compute. reflexivity.
  - exists req. repeat split; assumption.
Defined.

(** C1, as stated, fails: with one turn in the history the request ends
    with the assistant message of that turn; the new input is the first
    message, not the last. *)
Lemma new_message_is_not_trailing :
  exists req,
    requests (trace (fst (chat_with_claude w_ok "Hello" 0 [] st_one_turn)))
    = [req] /\
    messages req
    = [mkMessage user "Hello" (Some []); mkMessage user "a" None;
       mkMessage assistant "b" None] /\
    messages req
    <> flat_map turn_messages [("a", "b")]
       ++ [mkMessage user "Hello" (Some [])].
Proof.
  eexists. split; [vm_compute; reflexivity|].
  split; [reflexivity|]. discriminate.
Qed.

(** *** The turn handler *)

(** C2: on a live history object [handle_chat] always returns: it gives
    back a new list object that holds the turns of the input history
    followed by one new turn, and an empty file list.  The text of the
    new turn is the reply of [chat_with_claude], or the text of its
    exception after the word Error.  The input history object and every
    other object of the store are left as they were. *)
Theorem handle_chat_appends_one_turn (w : World) (message : string)
    (history : nat) (turns : list turn) (files : list File) (st : state) :
  store st !! history = Some turns ->
  exists st' updated reply,
    handle_chat w message history files st = (st', inr (updated, [])) /\
    store st' !! updated = Some (turns ++ [(message, reply)]) /\
    match snd (chat_with_claude w message history files st) with
    | inr response => reply = response
    | inl e => reply = ("Error: " ++ str (isprintable w) e)%string
    end /\
    updated <> history /\
    store st' !! history = Some turns /\
    (forall l, l <> updated -> store st' !! l = store st !! l).
Proof.
  intros Hturns.
  pose proof (is_fresh (dom (store st))) as Hfresh.
  set (updated := fresh (dom (store st))) in *.
  assert (Hneq : updated <> history).
  { intros ->. apply Hfresh. apply elem_of_dom. now exists turns. }
  eexists _, updated, _.
  split; [exact (handle_chat_run w _ _ _ _ _ Hturns)|].
  cbn [store].
  split; [apply lookup_insert_eq|].
  split; [now destruct (snd (chat_with_claude w message history files st))|].
  split; [exact Hneq|].
  split; [now rewrite lookup_insert_ne|].
  intros l Hl. now rewrite lookup_insert_ne.
Qed.

Lemma handle_chat_appends_one_turn_witness :
  exists st' updated reply,
    handle_chat w_ok "Hello" 0 [] st_one_turn = (st', inr (updated, [])) /\
    store st' !! updated = Some ([("a", "b")] ++ [("Hello", reply)]) /\
    match snd (chat_with_claude w_ok "Hello" 0 [] st_one_turn) with
    | inr response => reply = response
    | inl e => reply = ("Error: " ++ str (isprintable w_ok) e)%string
    end /\
    updated <> 0%nat /\
    store st' !! 0%nat = Some [("a", "b")] /\
    (forall l, l <> updated -> store st' !! l = store st_one_turn !! l).
Proof.
  apply (handle_chat_appends_one_turn w_ok "Hello" 0 [("a", "b")] []
           st_one_turn).
  vm_compute. reflexivity.
Defined.

(** C7, as amended: without a credential in the environment, absent or
    empty, [handle_chat] looks at the environment and makes no other
    call, in particular no network call; the new turn of the returned
    history has the text of the configuration error as [gradio.Error]
    writes it, between quotes, after the word Error. *)
Theorem handle_chat_without_credential (w : World) (message : string)
    (history : nat) (turns : list turn) (files : list File) (st : state) :
  os_getenv w key_var = None \/ os_getenv w key_var = Some "" ->
  store st !! history = Some turns ->
  exists st' updated,
    handle_chat w message history files st = (st', inr (updated, [])) /\
    store st' !! updated
    = Some (turns
            ++ [(message, "Error: 'Configuration error: API key missing'")]) /\
    trace st' = trace st ++ [Getenv key_var] /\
    requests (trace st') = requests (trace st).
Proof.
  intros Hkey Hturns. eexists _, _.
  split; [exact (handle_chat_run w _ _ _ _ _ Hturns)|].
  rewrite chat_without_key by exact Hkey.
  cbn [fst snd store trace record].
  split; [apply lookup_insert_eq|].
  split; [reflexivity|].
  rewrite requests_app. cbn. apply app_nil_r.
Qed.

Lemma handle_chat_without_credential_witness :
  exists st' updated,
    handle_chat w_no_key "Hello" 0 [mkFile "notes.txt"] st_fresh
    = (st', inr (updated, [])) /\
    store st' !! updated
    = Some ([] ++ [("Hello", "Error: 'Configuration error: API key missing'")]) /\
    trace st' = trace st_fresh ++ [Getenv key_var] /\
    requests (trace st') = requests (trace st_fresh).
Proof.
  apply (handle_chat_without_credential w_no_key "Hello" 0 []
           [mkFile "notes.txt"] st_fresh).
  - left. reflexivity.
  - vm_compute. reflexivity.
Defined.

(** C7, as stated, fails: the recorded text does not begin with the
    words Error: Configuration error, because a quote stands between
    them. *)
Lemma configuration_error_text_is_quoted :
  exists st' updated reply,
    handle_chat w_no_key "Hello" 0 [] st_fresh = (st', inr (updated, [])) /\
    store st' !! updated = Some [("Hello", reply)] /\
    reply = "Error: 'Configuration error: API key missing'" /\
    startswith reply "Error: Configuration error" = false.
Proof.
  eexists _, _, _. split; [vm_compute; reflexivity|].
  split; [vm_compute; reflexivity|].
  split; reflexivity.
Qed.

(** C9, as amended: the text of the turn that [handle_chat] records is
    either an error text, which starts with the word Error and is not
    empty, or the text of the first content block of the response to the
    request that was sent, whatever that text is. *)
Theorem recorded_reply_text (w : World) (message : string) (history : nat)
    (turns : list turn) (files : list File) (st : state) :
  store st !! history = Some turns ->
  exists st' updated reply,
    handle_chat w message history files st = (st', inr (updated, [])) /\
    store st' !! updated = Some (turns ++ [(message, reply)]) /\
    ((exists e, snd (chat_with_claude w message history files st) = inl e /\
                reply = ("Error: " ++ str (isprintable w) e)%string /\
                reply <> "")
     \/
     (exists key req resp block rest,
         In (Create key req) (trace st') /\
         messages_create w key req = inr resp /\
         resp_content resp = block :: rest /\
         reply = text block)).
Proof.
  intros Hturns. eexists _, _, _.
  split; [exact (handle_chat_run w _ _ _ _ _ Hturns)|].
  cbn [store trace].
  split; [apply lookup_insert_eq|].
  destruct (chat_with_claude w message history files st) as [st1 [e|response]]
    eqn:Hrun; cbn [fst snd reply_of].
  - left. exists e. repeat split. discriminate.
  - right. exact (chat_success_inv w _ _ _ _ _ _ _ Hturns Hrun).
Qed.

Lemma recorded_reply_text_witness :
  exists st' updated reply,
    handle_chat w_ok "Hello" 0 [] st_fresh = (st', inr (updated, [])) /\
    store st' !! updated = Some ([] ++ [("Hello", reply)]) /\
    ((exists e, snd (chat_with_claude w_ok "Hello" 0 [] st_fresh) = inl e /\
                reply = ("Error: " ++ str (isprintable w_ok) e)%string /\
                reply <> "")
     \/
     (exists key req resp block rest,
         In (Create key req) (trace st') /\
         messages_create w_ok key req = inr resp /\
         resp_content resp = block :: rest /\
         reply = text block)).
Proof.
  apply (recorded_reply_text w_ok "Hello" 0 [] [] st_fresh).
  vm_compute. reflexivity.
Defined.

(** C9, as stated, fails: when the first content block of the response
    has an empty text, the recorded turn has an empty assistant text. *)
Lemma recorded_reply_can_be_empty :
  exists st' updated,
    handle_chat w_empty_reply "Hello" 0 [] st_fresh
    = (st', inr (updated, [])) /\
    store st' !! updated = Some [("Hello", "")].
Proof.
  eexists _, _. split; vm_compute; reflexivity.
Qed.

(** *** The first file that fails *)

(** C5, as amended: when the files before [f] are processed with success
    and [f] fails validation, the calls made are those of the files before
    [f], in order, followed by the one or two calls of the validation of
    [f]; no call is made for a file after [f].  [process_attachments]
    raises the file error, and with a credential [chat_with_claude] raises
    it again through its last clause, the one for the exceptions without a
    clause of their own: the turn fails with an unexpected error that
    quotes the file error, and without any network call. *)
Theorem first_failure_short_circuit (w : World) (pre post : list File)
    (f : File) (e : exn) (key : string) :
  Forall (fun g => exists a, outcome (process_file w g) = inr a) pre ->
  outcome (validate_file w (name f)) = inl e ->
  os_getenv w key_var = Some key -> key <> "" ->
  exists calls,
    (calls = [Getsize (name f)] \/
     calls = [Getsize (name f); GuessType (name f)]) /\
    (forall st,
        process_attachments w (pre ++ f :: post) st
        = (record st (flat_map accepted_calls pre ++ calls),
           inl (GrError ("File error: " ++ str (isprintable w) e)%string))) /\
    (forall message history st,
        chat_with_claude w message history (pre ++ f :: post) st
        = (record st (Getenv key_var :: flat_map accepted_calls pre ++ calls),
           inl (GrError ("Unexpected error: "
                         ++ repr (isprintable w)
                              ("File error: " ++ str (isprintable w) e))%string))) /\
    unclassified
      (GrError ("Unexpected error: "
                ++ repr (isprintable w)
                     ("File error: " ++ str (isprintable w) e))%string) = true /\
    requests (Getenv key_var :: flat_map accepted_calls pre ++ calls) = [].
Proof.
  intros Hpre Hf Hkey Hne.
  destruct (Forall_processed w _ Hpre) as [atts Hatts].
  destruct (process_file_rejected w _ _ Hf) as [Hfail Hcalls].
  exists (events (validate_file w (name f))).
  assert (Hrun : forall st,
    process_attachments w (pre ++ f :: post) st
    = (record st (flat_map accepted_calls pre
                  ++ events (validate_file w (name f))),
       inl (file_error w e))).
  { intros st.
    rewrite (process_attachments_first_failure w _ post _ _ _ st Hatts Hfail).
    now rewrite Hcalls. }
  split; [exact (validate_file_rejects_events w _ _ Hf)|].
  split; [exact Hrun|].
  split; [|split].
  - intros message history st.
    destruct (steady_events _ _ _ Hrun) as [Hev Hout].
    rewrite (chat_file_error w _ _ _ _ _ st Hkey Hne Hout), Hev.
    reflexivity.
  - reflexivity.
  - change (Getenv key_var :: ?t) with ([Getenv key_var] ++ t).
    rewrite !requests_app, requests_accepted_calls.
    now destruct (validate_file_rejects_events w _ _ Hf) as [-> | ->].
Qed.

Lemma first_failure_short_circuit_witness :
  exists calls,
    (calls = [Getsize "movie.mp4"] \/
     calls = [Getsize "movie.mp4"; GuessType "movie.mp4"]) /\
    (forall st,
        process_attachments w_ok
          ([mkFile "notes.txt"] ++ mkFile "movie.mp4" :: [mkFile "photo.png"])
          st
        = (record st (flat_map accepted_calls [mkFile "notes.txt"] ++ calls),
           inl (GrError ("File error: "
                         ++ str (isprintable w_ok) (ValueError
                                   "Unsupported file type: video/mp4"))%string))).
Proof.
  destruct (first_failure_short_circuit w_ok [mkFile "notes.txt"]
              [mkFile "photo.png"] (mkFile "movie.mp4")
              (ValueError "Unsupported file type: video/mp4") "sk-test")
    as (calls & Hcalls & Hrun & _).
  - repeat constructor.
    exists (mkAttachment "base64" "text/plain" "SGVsbG8=").
    vm_compute. reflexivity.
  - vm_compute. reflexivity.
  - reflexivity.
  - discriminate.
  - exists calls. split; assumption.
Defined.

(** C5, as stated, fails: the error of the turn is not one of the
    classified errors.  A video among the files is rejected with a
    [ValueError]; the file error that [process_attachments] makes of it is
    raised inside the [try] of [chat_with_claude], whose last clause turns
    it into an unexpected error. *)
Lemma validation_failure_is_unclassified :
  snd (validate_file w_ok "movie.mp4" st_fresh)
  = inl (ValueError "Unsupported file type: video/mp4") /\
  exists text,
    snd (chat_with_claude w_ok "Hello" 0
           [mkFile "notes.txt"; mkFile "movie.mp4"; mkFile "photo.png"]
           st_fresh)
    = inl (GrError text) /\
    text = "Unexpected error: 'File error: Unsupported file type: video/mp4'" /\
    startswith text "File error" = false /\
    unclassified (GrError text) = true.
Proof.
  split; [vm_compute; reflexivity|].
  eexists. split; [vm_compute; reflexivity|].
  repeat split.
Qed.

End Claims.

(* ===================================================================== *)
(** ** The scenarios of the specification, evaluated                      *)
(* ===================================================================== *)

Module Scenarios.
Import Py App Run Files Dispatch Examples.

Example b64encode_hello : Base64.b64encode hello = "SGVsbG8=".
Proof. reflexivity. Qed.

Example b64decode_hello : Base64.b64decode "SGVsbG8=" = Some hello.
Proof. reflexivity. Qed.

Example b64decode_rejects_bad_padding : Base64.b64decode "SGVsbG8" = None.
Proof. reflexivity. Qed.

(** [repr] above ASCII: a printable character is copied, a no-break space
    and a zero width space are escaped. *)
Example repr_accent :
  repr Unicode.printable (text_of_bytes [99; 97; 102; 195; 169]%N)
  = text_of_bytes [39; 99; 97; 102; 195; 169; 39]%N.
Proof. vm_compute. reflexivity. Qed.

Example repr_no_break_space :
  repr Unicode.printable (text_of_bytes [97; 194; 160; 98]%N) = "'a\xa0b'".
Proof. vm_compute. reflexivity. Qed.

Example repr_zero_width_space :
  repr Unicode.printable (text_of_bytes [97; 226; 128; 139; 98]%N) = "'a\u200bb'".
Proof. vm_compute. reflexivity. Qed.

Example repr_tag_character :
  repr Unicode.printable (text_of_bytes [243; 160; 128; 129]%N) = "'\U000e0001'".
Proof. vm_compute. reflexivity. Qed.

Example repr_quotes :
  repr Unicode.printable "it's" = text_of_bytes [34; 105; 116; 39; 115; 34]%N.
Proof. vm_compute. reflexivity. Qed.

(** No file: an empty list of attachments and no call. *)
Example no_files (w : World) (st : state) :
  process_attachments w [] st = (st, inr []).
Proof. reflexivity. Qed.

(** Scenario 1: one request with the single user message Hello and no
    attachment; the history becomes the one turn (Hello, Hi there). *)
Example scenario_success :
  let run := handle_chat w_ok "Hello" 0 [] st_fresh in
  requests (trace (fst run))
  = [mkRequest MODEL_NAME MAX_TOKENS 0%Q [mkMessage user "Hello" (Some [])] 30]
  /\ snd run = inr (1%nat, [])
  /\ store (fst run) !! 1%nat = Some [("Hello", "Hi there")].
Proof. repeat split; vm_compute; reflexivity. Qed.

(** Scenario 3: the throttling of the remote side is recorded as a text. *)
Example scenario_rate_limit :
  let run := handle_chat w_rate_limited "Hello" 0 [] st_fresh in
  store (fst run) !! 1%nat
  = Some [("Hello",
           "Error: 'Rate limit exceeded: Please wait before sending new messages'")].
Proof. vm_compute. reflexivity. Qed.

(** A status error with a structured body gives its message. *)
Example scenario_status_error :
  snd (chat_with_claude (w_status (inr overloaded)) "Hello" 0 [] st_fresh)
  = inl (GrError "API error: Overloaded").
Proof. vm_compute. reflexivity. Qed.

(** A message of the remote side with a no-break space is recorded with
    the escape that [gradio.Error] writes for it. *)
Example scenario_status_error_escaped :
  let body := JObj [("error",
                     JObj [("message", JStr (text_of_bytes [97; 194; 160; 98]%N))])] in
  store (fst (handle_chat (w_status (inr body)) "Hello" 0 [] st_fresh)) !! 1%nat
  = Some [("Hello", "Error: 'API error: a\xa0b'")].
Proof. vm_compute. reflexivity. Qed.

(** A status error without the field gives the default message. *)
Example scenario_status_error_default :
  snd (chat_with_claude (w_status (inr (JObj []))) "Hello" 0 [] st_fresh)
  = inl (GrError "API error: Unknown error").
Proof. vm_compute. reflexivity. Qed.

(** A status error whose body is not JSON: the handler itself raises, and
    the turn handler still records a text. *)
Example scenario_status_error_not_json :
  let w := w_status (inl "Expecting value: line 1 column 1 (char 0)") in
  snd (chat_with_claude w "Hello" 0 [] st_fresh)
  = inl (ValueError "Expecting value: line 1 column 1 (char 0)")
  /\ store (fst (handle_chat w "Hello" 0 [] st_fresh)) !! 1%nat
     = Some [("Hello", "Error: Expecting value: line 1 column 1 (char 0)")].
Proof. split; vm_compute; reflexivity. Qed.

(** A file that does not exist: the error of the operating system is
    shown through both handlers. *)
Example scenario_missing_file :
  snd (process_attachments w_ok [mkFile "gone.txt"] st_fresh)
  = inl (GrError "File error: [Errno 2] No such file or directory: 'gone.txt'").
Proof. vm_compute. reflexivity. Qed.

End Scenarios.

(* ===================================================================== *)
(** ** Further properties of the program                                  *)
(* ===================================================================== *)

Module Extras.
Import Py App Run RunFacts Files FileFacts Dispatch ChatFacts Examples Failures.

Local Ltac Zify.zify_post_hook ::= Z.to_euclidean_division_equations.

(** *** Files *)

(** X1: [validate_file] returns exactly for the files whose size is read
    and is at most 10485760 bytes and whose MIME type is resolved and
    starts with a member of the allow-set; in every other case it raises. *)
Theorem validate_file_returns_iff (w : World) (p : string) (st : state) :
  snd (validate_file w p st) = inr tt <->
  exists size m,
    os_path_getsize w p = inr size /\ (size <= 10485760)%Z /\
    mimetypes_guess_type w p = Some m /\
    existsb (fun allowed => String.prefix allowed m) ALLOWED_MIME_TYPES = true.
Proof.
  rewrite validate_file_steady. cbn [snd].
  exact (validate_file_accepts w p).
Qed.

(** X2: [validate_file] never opens the file and never uses the network:
    it asks for the size, and for the type only when the size is within
    the limit. *)
Theorem validate_file_calls (w : World) (p : string) (st : state) :
  let st' := fst (validate_file w p st) in
  store st' = store st /\
  (trace st' = trace st ++ [Getsize p] \/
   trace st' = trace st ++ [Getsize p; GuessType p]) /\
  (trace st' = trace st ++ [Getsize p; GuessType p] <->
   exists size, os_path_getsize w p = inr size /\ (size <= 10485760)%Z).
Proof.
  cbv zeta. rewrite validate_file_run.
  assert (Hne : forall t : list event,
             t ++ [Getsize p] <> t ++ [Getsize p; GuessType p]).
  { intros t H. apply app_inv_head in H. discriminate. }
  destruct (os_path_getsize w p) as [e|size].
  { cbn. split; [reflexivity|split; [now left|split]].
    - intros H. now apply Hne in H.
    - intros (size & [=] & _). }
  destruct (Z.ltb_spec limit_bytes size) as [Hlt|Hle].
  { cbn. split; [reflexivity|split; [now left|split]].
    - intros H. now apply Hne in H.
    - intros (size' & [= <-] & Hle).
      change limit_bytes with 10485760%Z in Hlt. lia. }
  assert (Hle' : (size <= 10485760)%Z) by exact Hle.
  destruct (mimetypes_guess_type w p) as [m|]; [destruct (allow_listed m)|];
    cbn;
    (split; [reflexivity|split; [now right|split;
       [intros _; now exists size|intros _; reflexivity]]]).
Qed.

Lemma processable_processed (w : World) (g : File) :
  processable w g -> exists a, outcome (process_file w g) = inr a.
Proof.
  intros ((size & Hsize & Hle) & (m & Hm & Hallow) & (file_data & Hdata)).
  eexists. apply process_file_success. exists m, file_data.
  repeat split; try eassumption; try reflexivity.
  apply validate_file_accepts. now exists size, m.
Qed.

Lemma Forall_processable (w : World) (files : list File) :
  Forall (processable w) files ->
  Forall (fun g => exists a, outcome (process_file w g) = inr a) files.
Proof.
  induction 1 as [|g files Hg _ IH]; constructor; [|exact IH].
  now apply processable_processed.
Qed.

(** X3: a file that passes validation and cannot be read stops the loop
    like a rejected one: the exception of [open] is raised again as a file
    error after the four calls for that file, and the files after it are
    not touched. *)
Theorem unreadable_file_short_circuit (w : World) (pre post : list File)
    (f : File) (size : Z) (m : string) (e : exn) (st : state) :
  Forall (processable w) pre ->
  os_path_getsize w (name f) = inr size -> (size <= limit_bytes)%Z ->
  mimetypes_guess_type w (name f) = Some m -> allow_listed m = true ->
  read_binary w (name f) = inl e ->
  process_attachments w (pre ++ f :: post) st
  = (record st (flat_map accepted_calls pre ++ accepted_calls f),
     inl (GrError ("File error: " ++ str (isprintable w) e)%string)).
Proof.
  intros Hpre Hsize Hle Hm Hallow Hread.
  destruct (Forall_processed w _ (Forall_processable w _ Hpre)) as [atts Hatts].
  assert (Hv : outcome (validate_file w (name f)) = inr tt).
  { apply validate_file_accepts. now exists size, m. }
  assert (Hout : outcome (process_file w f) = inl e).
  { unfold outcome at 1. now rewrite process_file_run, Hv, Hread. }
  assert (Hev : events (process_file w f) = accepted_calls f).
  { unfold events at 1. now rewrite process_file_run, Hv. }
  rewrite (process_attachments_first_failure w _ post _ _ _ st Hatts Hout).
  now rewrite Hev.
Qed.

Lemma unreadable_file_short_circuit_witness :
  process_attachments w_locked
    ([mkFile "notes.txt"] ++ mkFile "locked.txt" :: [mkFile "photo.png"])
    st_fresh
  = (record st_fresh
       (flat_map accepted_calls [mkFile "notes.txt"]
        ++ accepted_calls (mkFile "locked.txt")),
     inl (GrError ("File error: "
                   ++ str (isprintable w_locked) (permission_denied "locked.txt"))%string)).
Proof.
  apply (unreadable_file_short_circuit w_locked [mkFile "notes.txt"]
           [mkFile "photo.png"] (mkFile "locked.txt") 7 "text/plain"
           (permission_denied "locked.txt") st_fresh).
  - repeat constructor.
    + exists 5%Z. split; [reflexivity|vm_compute; discriminate].
    + exists "text/plain". split; reflexivity.
    + exists hello. reflexivity.
  - reflexivity.
  - vm_compute. discriminate.
  - reflexivity.
  - reflexivity.
  - reflexivity.
Defined.

(** X4: [process_attachments] returns exactly when every file has a size
    of at most 10485760 bytes, a resolved MIME type that starts with a
    member of the allow-set, and contents that can be read; it then
    returns one attachment for each file. *)
Theorem process_attachments_returns_iff (w : World) (files : list File)
    (st : state) :
  (exists st' atts,
      process_attachments w files st = (st', inr atts) /\
      length atts = length files)
  <-> Forall (processable w) files.
Proof.
  split.
  - intros (st' & atts & Hrun & _).
    destruct (process_loop_success w _ _ _ _ _ Hrun) as (new & -> & Hall).
    clear Hrun. induction Hall as [|f a files new Hf _ IH]; constructor;
      [|exact IH].
    apply process_file_success in Hf.
    destruct Hf as (m & file_data & Hv & Hm & Hallow & Hread & _).
    apply validate_file_accepts in Hv.
    destruct Hv as (size & m' & Hsize & Hle & _ & _).
    repeat split; [now exists size|now exists m|now exists file_data].
  - intros Hall.
    destruct (Forall_processed w _ (Forall_processable w _ Hall)) as [atts Hatts].
    eexists _, atts. split; [now apply process_attachments_accepted|].
    symmetry. eapply Forall2_length. exact Hatts.
Qed.

(** X5: the allow-set is matched on prefixes: a type that starts with an
    allowed type is allowed as well, whatever follows. *)
Theorem allow_listed_extension (m suffix : string) :
  allow_listed m = true -> allow_listed (m ++ suffix) = true.
Proof.
  unfold allow_listed. rewrite !existsb_exists.
  intros (allowed & Hin & Hpre). exists allowed. split; [exact Hin|].
  unfold startswith in *. clear Hin.
  revert m Hpre. induction allowed as [|c allowed IH]; intros m Hpre.
  - now destruct (m ++ suffix)%string.
  - destruct m as [|c' m]; [discriminate|]. simpl in Hpre |- *.
    destruct (Ascii.ascii_dec c c') as [_|_]; [|discriminate]. now apply IH.
Qed.

Lemma allow_listed_extension_witness :
  allow_listed ("application/json" ++ "-patch+json") = true.
Proof. apply (allow_listed_extension "application/json"). reflexivity. Defined.

Lemma any_startswith_order_witness :
  any_startswith (Some "image/png") ALLOWED_MIME_TYPES
  = any_startswith (Some "image/png") (rev ALLOWED_MIME_TYPES).
Proof.
  apply (any_startswith_order (Some "image/png") ALLOWED_MIME_TYPES
           (rev ALLOWED_MIME_TYPES)).
  apply Permutation_rev.
Defined.

(** *** The text of an attachment *)

Lemma length_string_of_list_ascii (cs : list ascii) :
  String.length (string_of_list_ascii cs) = length cs.
Proof. induction cs as [|c cs IH]; cbn; [reflexivity|now rewrite IH]. Qed.

Lemma base64_char_char_of (v : N) : (v < 64)%N -> base64_char (Base64.char_of v) = true.
Proof.
  intros Hv. unfold base64_char.
  rewrite (Base64Facts.value_of_char_of _ Hv). apply orb_true_r.
Qed.

Lemma base64_chars_quad (n : N) :
  (n < 16777216)%N -> forallb base64_char (Base64.quad n) = true.
Proof.
  intros Hn. unfold Base64.quad. cbn [forallb].
  rewrite !base64_char_char_of by lia. reflexivity.
Qed.

Lemma base64_chars_encode (bs : list byte) :
  forallb base64_char (Base64.encode bs) = true.
Proof.
  induction bs as [|a|a b|a b c rest IH] using Base64Facts.bytes_ind3.
  - reflexivity.
  - pose proof (Byte.to_N_bounded a) as Ha.
    cbn [Base64.encode]. cbv zeta.
    pose proof (base64_chars_quad (Byte.to_N a * 65536) ltac:(lia)) as Hq.
    unfold Base64.quad in Hq |- *. cbn [forallb firstn app] in Hq |- *.
    apply andb_prop in Hq as [H1 Hq]. apply andb_prop in Hq as [H2 _].
    now rewrite H1, H2.
  - pose proof (Byte.to_N_bounded a) as Ha.
    pose proof (Byte.to_N_bounded b) as Hb.
    cbn [Base64.encode]. cbv zeta.
    pose proof (base64_chars_quad (Byte.to_N a * 65536 + Byte.to_N b * 256)
                  ltac:(lia)) as Hq.
    unfold Base64.quad in Hq |- *. cbn [forallb firstn app] in Hq |- *.
    apply andb_prop in Hq as [H1 Hq]. apply andb_prop in Hq as [H2 Hq].
    apply andb_prop in Hq as [H3 _].
    now rewrite H1, H2, H3.
  - pose proof (Byte.to_N_bounded a) as Ha.
    pose proof (Byte.to_N_bounded b) as Hb.
    pose proof (Byte.to_N_bounded c) as Hc.
    cbn [Base64.encode]. cbv zeta.
    rewrite forallb_app, IH, base64_chars_quad by lia. reflexivity.
Qed.

(** X7: every attachment that [process_attachments] returns has the type
    base64 and a text of four characters for every three bytes of its
    file, the last group filled up: 4 * ceil(n / 3) characters for n bytes,
    all of them letters, digits, plus, slash or the padding sign. *)
Theorem attachment_text_shape (w : World) (files : list File)
    (st st' : state) (atts : list attachment) :
  process_attachments w files st = (st', inr atts) ->
  Forall2 (fun f a =>
             exists file_data,
               read_binary w (name f) = inr file_data /\
               type a = "base64" /\
               String.length (data a) = (4 * ((length file_data + 2) / 3))%nat /\
               forallb base64_char (list_ascii_of_string (data a)) = true)
          files atts.
Proof.
  intros Hrun.
  destruct (process_loop_success w _ _ _ _ _ Hrun) as (new & -> & Hall).
  cbn [app]. clear Hrun.
  induction Hall as [|f a files new Hf _ IH]; constructor; [|exact IH].
  apply process_file_success in Hf.
  destruct Hf as (m & file_data & _ & _ & _ & Hread & ->).
  exists file_data. cbn [type data]. unfold Base64.b64encode.
  rewrite length_string_of_list_ascii, list_ascii_of_string_of_list_ascii.
  repeat split; [exact Hread|apply Base64Facts.encode_length|
                 apply base64_chars_encode].
Qed.

Lemma attachment_text_shape_witness :
  Forall2 (fun f a =>
             exists file_data,
               read_binary w_ok (name f) = inr file_data /\
               type a = "base64" /\
               String.length (data a) = (4 * ((length file_data + 2) / 3))%nat /\
               forallb base64_char (list_ascii_of_string (data a)) = true)
          [mkFile "notes.txt"; mkFile "photo.png"]
          [mkAttachment "base64" "text/plain" "SGVsbG8=";
           mkAttachment "base64" "image/png" "iVBORw=="].
Proof.
  apply (attachment_text_shape w_ok [mkFile "notes.txt"; mkFile "photo.png"]
           st_fresh
           (record st_fresh
              (flat_map accepted_calls [mkFile "notes.txt"; mkFile "photo.png"]))).
  vm_compute. reflexivity.
Defined.

(** *** The dispatch *)

Lemma process_loop_failure (w : World) (files : list File) :
  forall acc e,
    outcome (process_loop w files acc) = inl e -> exists e0, e = file_error w e0.
Proof.
  induction files as [|f rest IH]; intros acc e; [discriminate|].
  unfold outcome. rewrite process_loop_cons.
  destruct (outcome (process_file w f)) as [e0|a].
  - intros [= <-]. now exists e0.
  - rewrite process_loop_steady. cbn [snd]. apply IH.
Qed.

(** The result of a clause of the handler: a [gradio.Error], or, for a
    status error, the exception of the reading of its body. *)
Lemma api_handler_result (w : World) (e e' : exn) (st st' : state) :
  api_handler w e st = (st', inl e') ->
  (exists m, e' = GrError m) \/
  (exists code msg body,
      e = APIStatusError code msg body /\ status_message w body = inl e').
Proof.
  destruct e; cbn [api_handler]; unfold raise;
    try (intros [= _ <-]; left; eexists; reflexivity).
  unfold bind, lift.
  destruct (status_message w body) as [e0|m] eqn:Hbody; intros [= _ <-].
  - right. now exists status_code, msg, body.
  - left. eexists. reflexivity.
Qed.

(** The history names no list object: reading it fails inside the [try],
    before any request. *)
Lemma chat_no_object (w : World) (message : string) (history : nat)
    (files : list File) (key : string) (atts : list attachment) (st : state) :
  os_getenv w key_var = Some key -> key <> "" ->
  outcome (process_attachments w files) = inr atts ->
  store st !! history = None ->
  chat_with_claude w message history files st
  = (record st (Getenv key_var :: events (process_attachments w files)),
     inl (GrError "Unexpected error: no such object")).
Proof.
  intros Hkey Hne Hatts Hnone. unfold chat_with_claude.
  rewrite bind_steady by apply steady_call.
  rewrite outcome_call, events_call. fold key_var. rewrite Hkey.
  destruct key as [|c key]; [contradiction|].
  unfold try_except. rewrite bind_steady by apply process_attachments_steady.
  rewrite Hatts, record_record. cbn [app].
  unfold bind at 1, list_read. cbn [store record]. now rewrite Hnone.
Qed.

(** X8: every run of [chat_with_claude] first reads the credential from
    the environment, then makes the calls for the files, none of them a
    network call, and last at most one network call; that call uses the
    credential of the environment and the fixed model, token limit,
    temperature and timeout. *)
Theorem chat_call_protocol (w : World) (message : string) (history : nat)
    (files : list File) (st : state) :
  exists file_calls net,
    trace (fst (chat_with_claude w message history files st))
    = trace st ++ Getenv key_var :: file_calls ++ net /\
    requests file_calls = [] /\
    (net = [] \/
     exists key req,
       net = [Create key req] /\
       os_getenv w key_var = Some key /\ key <> "" /\
       model req = "claude-3-5-sonnet-20241022" /\
       max_tokens req = 8192%Z /\
       temperature req = 0%Q /\
       timeout req = 30%Z).
Proof.
  destruct (os_getenv w key_var) as [key|] eqn:Hkey.
  2:{ exists [], []. rewrite chat_without_key by now left.
      repeat split. now left. }
  destruct (String.eqb_spec key "") as [->|Hne].
  { exists [], []. rewrite chat_without_key by now right.
    repeat split. now left. }
  assert (Hfiles : requests (events (process_attachments w files)) = [])
    by apply requests_process_loop.
  destruct (outcome (process_attachments w files)) as [e|atts] eqn:Hatts.
  { exists (events (process_attachments w files)), [].
    rewrite (chat_file_error w _ _ _ _ _ st Hkey Hne Hatts).
    cbn [fst record trace]. rewrite app_nil_r.
    repeat split; [exact Hfiles|now left]. }
  destruct (store st !! history) as [turns|] eqn:Hturns.
  - exists (events (process_attachments w files)),
           [Create key (request_for message atts turns)].
    rewrite (chat_sent w _ _ _ _ _ _ st Hkey Hne Hatts Hturns).
    cbn [fst record trace].
    repeat split; [exact Hfiles|].
    right. exists key, (request_for message atts turns).
    repeat split. exact Hne.
  - exists (events (process_attachments w files)), [].
    rewrite (chat_no_object w _ _ _ _ _ st Hkey Hne Hatts Hturns).
    cbn [fst record trace]. rewrite app_nil_r.
    repeat split; [exact Hfiles|now left].
Qed.

(** X9: an exception that leaves [chat_with_claude] is a [gradio.Error],
    with one exception: when the remote side answers with a status error
    whose body cannot be read as the handler expects, the exception of
    that reading leaves the function as it is. *)
Theorem chat_raises_gradio_error (w : World) (message : string)
    (history : nat) (files : list File) (st st' : state) (e : exn) :
  chat_with_claude w message history files st = (st', inl e) ->
  (exists m, e = GrError m) \/
  (exists key req code msg body,
      In (Create key req) (trace st') /\
      messages_create w key req = inl (APIStatusError code msg body) /\
      status_message w body = inl e).
Proof.
  intros Hrun.
  destruct (os_getenv w key_var) as [key|] eqn:Hkey.
  2:{ rewrite chat_without_key in Hrun by now left.
      injection Hrun as _ <-. left. eexists. reflexivity. }
  destruct (String.eqb_spec key "") as [->|Hne].
  { rewrite chat_without_key in Hrun by now right.
    injection Hrun as _ <-. left. eexists. reflexivity. }
  destruct (outcome (process_attachments w files)) as [e0|atts] eqn:Hatts.
  { rewrite (chat_file_error w _ _ _ _ _ st Hkey Hne Hatts) in Hrun.
    destruct (process_loop_failure w _ _ _ Hatts) as [e1 ->].
    injection Hrun as _ <-. left. eexists. reflexivity. }
  destruct (store st !! history) as [turns|] eqn:Hturns.
  2:{ rewrite (chat_no_object w _ _ _ _ _ st Hkey Hne Hatts Hturns) in Hrun.
      injection Hrun as _ <-. left. eexists. reflexivity. }
  rewrite (chat_sent w _ _ _ _ _ _ st Hkey Hne Hatts Hturns) in Hrun.
  injection Hrun as <- Hres.
  destruct (messages_create w key (request_for message atts turns))
    as [e0|resp] eqn:Hcreate.
  - destruct (api_handler_raises w e0) as [e' He'].
    rewrite He' in Hres. injection Hres as ->.
    destruct (api_handler_result w _ _ _ _ (He' st))
      as [Hgr|(code & msg & body & -> & Hbody)]; [now left|].
    right. exists key, (request_for message atts turns), code, msg, body.
    repeat split; try assumption.
    cbn [record trace]. apply in_or_app. right.
    right. apply in_or_app. right. now left.
  - destruct (resp_content resp) as [|block rest]; [|discriminate].
    injection Hres as <-. left. eexists. reflexivity.
Qed.

Lemma chat_raises_gradio_error_witness :
  (exists m, ValueError "Expecting value: line 1 column 1 (char 0)" = GrError m)
  \/
  (exists key req code msg body,
      In (Create key req)
         (trace (fst (chat_with_claude
                        (w_status (inl "Expecting value: line 1 column 1 (char 0)"))
                        "Hello" 0 [] st_fresh))) /\
      messages_create (w_status (inl "Expecting value: line 1 column 1 (char 0)"))
        key req
      = inl (APIStatusError code msg body) /\
      status_message (w_status (inl "Expecting value: line 1 column 1 (char 0)"))
        body
      = inl (ValueError "Expecting value: line 1 column 1 (char 0)")).
Proof.
  apply (chat_raises_gradio_error
           (w_status (inl "Expecting value: line 1 column 1 (char 0)"))
           "Hello" 0 [] st_fresh).
  vm_compute. reflexivity.
Defined.

(** *** The errors of the remote side *)

Section Sent.

Variables (w : World) (message : string) (history : nat) (turns : list turn).
Variables (files : list File) (key : string) (atts : list attachment).
Variable st : state.

Hypothesis Hkey : os_getenv w key_var = Some key.
Hypothesis Hne : key <> "".
Hypothesis Hatts : outcome (process_attachments w files) = inr atts.
Hypothesis Hturns : store st !! history = Some turns.

(** What [handle_chat] records when the request is sent and fails with
    [e], and the handler of [chat_with_claude] turns [e] into [e']. *)
Lemma handle_chat_remote_error (e e' : exn) :
  messages_create w key (request_for message atts turns) = inl e ->
  (forall st0, api_handler w e st0 = (st0, inl e')) ->
  snd (chat_with_claude w message history files st) = inl e' /\
  exists st' updated,
    handle_chat w message history files st = (st', inr (updated, [])) /\
    store st' !! updated = Some (turns ++ [(message, ("Error: " ++ str (isprintable w) e')%string)]).
Proof.
  intros Hcreate Hhandler.
  assert (Hrun : snd (chat_with_claude w message history files st) = inl e').
  { rewrite (chat_sent w _ _ _ _ _ _ st Hkey Hne Hatts Hturns).
    cbn [snd]. now rewrite Hcreate, Hhandler. }
  split; [exact Hrun|].
  eexists _, _.
  split; [exact (handle_chat_run w _ _ _ _ _ Hturns)|].
  cbn [store]. rewrite Hrun. apply lookup_insert_eq.
Qed.

End Sent.

(** X10: when the request cannot reach the remote side, the user reads a
    fixed sentence about the connection; the text of the exception of the
    client library is not shown. *)
Theorem connection_error_text (w : World) (message : string) (history : nat)
    (turns : list turn) (files : list File) (key : string)
    (atts : list attachment) (st : state) (msg : string) :
  os_getenv w key_var = Some key -> key <> "" ->
  outcome (process_attachments w files) = inr atts ->
  store st !! history = Some turns ->
  messages_create w key (request_for message atts turns)
  = inl (APIConnectionError msg) ->
  snd (chat_with_claude w message history files st)
  = inl (GrError "Connection error: Please check your internet connection") /\
  exists st' updated,
    handle_chat w message history files st = (st', inr (updated, [])) /\
    store st' !! updated
    = Some (turns ++
            [(message,
              "Error: 'Connection error: Please check your internet connection'")]).
Proof.
  intros Hkey Hne Hatts Hturns Hcreate.
  exact (handle_chat_remote_error w _ _ _ _ _ _ st Hkey Hne Hatts Hturns _ _
           Hcreate (fun st0 => eq_refl)).
Qed.

Lemma connection_error_text_witness :
  snd (chat_with_claude w_offline "Hello" 0 [] st_one_turn)
  = inl (GrError "Connection error: Please check your internet connection") /\
  exists st' updated,
    handle_chat w_offline "Hello" 0 [] st_one_turn = (st', inr (updated, [])) /\
    store st' !! updated
    = Some ([("a", "b")] ++
            [("Hello",
              "Error: 'Connection error: Please check your internet connection'")]).
Proof.
  apply (connection_error_text w_offline "Hello" 0 [("a", "b")] [] "sk-test" []
           st_one_turn "Connection error.").
  - reflexivity.
  - discriminate.
  - reflexivity.
  - vm_compute. reflexivity.
  - reflexivity.
Defined.

(** X11: when the remote side throttles, the user reads a fixed sentence
    about the rate limit, also though a rate limit error is a status error:
    its clause comes first, and the body of the response is not read. *)
Theorem rate_limit_text_shown (w : World) (message : string) (history : nat)
    (turns : list turn) (files : list File) (key : string)
    (atts : list attachment) (st : state) (msg : string) :
  os_getenv w key_var = Some key -> key <> "" ->
  outcome (process_attachments w files) = inr atts ->
  store st !! history = Some turns ->
  messages_create w key (request_for message atts turns)
  = inl (RateLimitError msg) ->
  snd (chat_with_claude w message history files st)
  = inl (GrError "Rate limit exceeded: Please wait before sending new messages") /\
  exists st' updated,
    handle_chat w message history files st = (st', inr (updated, [])) /\
    store st' !! updated
    = Some (turns ++
            [(message,
              "Error: 'Rate limit exceeded: Please wait before sending new messages'")]).
Proof.
  intros Hkey Hne Hatts Hturns Hcreate.
  exact (handle_chat_remote_error w _ _ _ _ _ _ st Hkey Hne Hatts Hturns _ _
           Hcreate (fun st0 => eq_refl)).
Qed.

Lemma rate_limit_text_shown_witness :
  snd (chat_with_claude w_rate_limited "Hello" 0 [] st_fresh)
  = inl (GrError "Rate limit exceeded: Please wait before sending new messages") /\
  exists st' updated,
    handle_chat w_rate_limited "Hello" 0 [] st_fresh = (st', inr (updated, [])) /\
    store st' !! updated
    = Some ([] ++
            [("Hello",
              "Error: 'Rate limit exceeded: Please wait before sending new messages'")]).
Proof.
  apply (rate_limit_text_shown w_rate_limited "Hello" 0 [] [] "sk-test" []
           st_fresh "Error code: 429").
  - reflexivity.
  - discriminate.
  - reflexivity.
  - vm_compute. reflexivity.
  - reflexivity.
Defined.

(** X12: for a status error whose body is a JSON object with an object
    under the key error, the user reads the value under message of that
    object: a text as it is, any other value as Python writes it. *)
Theorem status_error_message_shown (w : World) (message : string)
    (history : nat) (turns : list turn) (files : list File) (key : string)
    (atts : list attachment) (st : state) (code : Z) (msg : string)
    (fields efields : list (string * json)) (v : json) :
  os_getenv w key_var = Some key -> key <> "" ->
  outcome (process_attachments w files) = inr atts ->
  store st !! history = Some turns ->
  messages_create w key (request_for message atts turns)
  = inl (APIStatusError code msg (inr (JObj fields))) ->
  assoc "error" fields = Some (JObj efields) ->
  assoc "message" efields = Some v ->
  snd (chat_with_claude w message history files st)
  = inl (GrError ("API error: " ++ str_json (isprintable w) v)%string) /\
  exists st' updated,
    handle_chat w message history files st = (st', inr (updated, [])) /\
    store st' !! updated
    = Some (turns ++
            [(message,
              ("Error: " ++ repr (isprintable w)
                              ("API error: " ++ str_json (isprintable w) v))%string)]).
Proof.
  intros Hkey Hne Hatts Hturns Hcreate Herror Hmessage.
  refine (handle_chat_remote_error w _ _ _ _ _ _ st Hkey Hne Hatts Hturns _ _
            Hcreate _).
  intros st0. cbn [api_handler]. unfold bind, lift, raise, status_message, get.
  now rewrite Herror, Hmessage.
Qed.

Lemma status_error_message_shown_witness :
  snd (chat_with_claude (w_status (inr overloaded)) "Hello" 0 [] st_fresh)
  = inl (GrError ("API error: " ++ str_json (isprintable (w_status (inr overloaded))) (JStr "Overloaded"))%string) /\
  exists st' updated,
    handle_chat (w_status (inr overloaded)) "Hello" 0 [] st_fresh
    = (st', inr (updated, [])) /\
    store st' !! updated
    = Some ([] ++
            [("Hello",
              ("Error: " ++ repr (isprintable (w_status (inr overloaded))) ("API error: " ++ str_json (isprintable (w_status (inr overloaded))) (JStr "Overloaded")))%string)]).
Proof.
  apply (status_error_message_shown (w_status (inr overloaded)) "Hello" 0 [] []
           "sk-test" [] st_fresh 529 "Error code: 529"
           [("type", JStr "error");
            ("error", JObj [("type", JStr "overloaded_error");
                            ("message", JStr "Overloaded")])]
           [("type", JStr "overloaded_error"); ("message", JStr "Overloaded")]
           (JStr "Overloaded")).
  - reflexivity.
  - discriminate.
  - reflexivity.
  - vm_compute. reflexivity.
  - reflexivity.
  - reflexivity.
  - reflexivity.
Defined.

(** X13: for a status error whose body is a JSON object without the key
    error, or with an object under error that has no key message, the
    user reads the default text Unknown error. *)
Theorem status_error_default_text (w : World) (message : string)
    (history : nat) (turns : list turn) (files : list File) (key : string)
    (atts : list attachment) (st : state) (code : Z) (msg : string)
    (fields : list (string * json)) :
  os_getenv w key_var = Some key -> key <> "" ->
  outcome (process_attachments w files) = inr atts ->
  store st !! history = Some turns ->
  messages_create w key (request_for message atts turns)
  = inl (APIStatusError code msg (inr (JObj fields))) ->
  (assoc "error" fields = None \/
   exists efields, assoc "error" fields = Some (JObj efields) /\
                   assoc "message" efields = None) ->
  snd (chat_with_claude w message history files st)
  = inl (GrError "API error: Unknown error") /\
  exists st' updated,
    handle_chat w message history files st = (st', inr (updated, [])) /\
    store st' !! updated
    = Some (turns ++ [(message, "Error: 'API error: Unknown error'")]).
Proof.
  intros Hkey Hne Hatts Hturns Hcreate Hfields.
  refine (handle_chat_remote_error w _ _ _ _ _ _ st Hkey Hne Hatts Hturns _ _
            Hcreate _).
  intros st0. cbn [api_handler]. unfold bind, lift, raise, status_message, get.
  destruct Hfields as [-> | (efields & -> & Hmessage)]; [reflexivity|].
  now rewrite Hmessage.
Qed.

Lemma status_error_default_text_witness :
  snd (chat_with_claude (w_status (inr (JObj [("type", JStr "error")])))
         "Hello" 0 [] st_fresh)
  = inl (GrError "API error: Unknown error") /\
  exists st' updated,
    handle_chat (w_status (inr (JObj [("type", JStr "error")])))
      "Hello" 0 [] st_fresh
    = (st', inr (updated, [])) /\
    store st' !! updated
    = Some ([] ++ [("Hello", "Error: 'API error: Unknown error'")]).
Proof.
  apply (status_error_default_text
           (w_status (inr (JObj [("type", JStr "error")]))) "Hello" 0 [] []
           "sk-test" [] st_fresh 529 "Error code: 529" [("type", JStr "error")]).
  - reflexivity.
  - discriminate.
  - reflexivity.
  - vm_compute. reflexivity.
  - reflexivity.
  - left. reflexivity.
Defined.

(** X14: the reading of the body of a status error fails in exactly three
    cases: the body is not JSON, the JSON value is not an object, or the
    value under the key error is not an object.  The exception is the
    [ValueError] of the parser in the first case and the [AttributeError]
    of the call of get in the other two. *)
Theorem status_message_raises_iff (w : World) (body : string + json)
    (e : exn) :
  status_message w body = inl e <->
  (exists text, body = inl text /\ e = ValueError text) \/
  (exists v, body = inr v /\ is_dict v = false /\
             e = AttributeError (no_attribute (type_name v) "get")) \/
  (exists fields err,
      body = inr (JObj fields) /\ assoc "error" fields = Some err /\
      is_dict err = false /\
      e = AttributeError (no_attribute (type_name err) "get")).
Proof.
  split.
  - destruct body as [text|v]; cbn [status_message].
    { intros [= <-]. left. now exists text. }
    destruct v as [| | | | | |fields]; cbn [get];
      try (intros [= <-]; right; left; eexists; repeat split; reflexivity).
    destruct (assoc "error" fields) as [err|] eqn:Herr.
    + destruct err as [| | | | | |efields]; cbn [get];
        [intros [= <-]; right; right; exists fields; eexists;
         (split; [reflexivity|split; [exact Herr|split; reflexivity]]) ..
        | discriminate].
    + discriminate.
  - intros [(text & -> & ->) | [(v & -> & Hv & ->) |
                                (fields & err & -> & Herr & Hv & ->)]].
    + reflexivity.
    + destruct v; try reflexivity. discriminate Hv.
    + cbn [status_message get]. rewrite Herr.
      destruct err; try reflexivity. discriminate Hv.
Qed.

(** X15: when the reading of the body of a status error fails, its
    exception leaves [chat_with_claude] without the wrapping of the other
    errors, and [handle_chat] records its text without quotes. *)
Theorem status_body_failure_escapes (w : World) (message : string)
    (history : nat) (turns : list turn) (files : list File) (key : string)
    (atts : list attachment) (st : state) (code : Z) (msg : string)
    (body : string + json) (e : exn) :
  os_getenv w key_var = Some key -> key <> "" ->
  outcome (process_attachments w files) = inr atts ->
  store st !! history = Some turns ->
  messages_create w key (request_for message atts turns)
  = inl (APIStatusError code msg body) ->
  status_message w body = inl e ->
  snd (chat_with_claude w message history files st) = inl e /\
  exists st' updated,
    handle_chat w message history files st = (st', inr (updated, [])) /\
    store st' !! updated = Some (turns ++ [(message, ("Error: " ++ str (isprintable w) e)%string)]).
Proof.
  intros Hkey Hne Hatts Hturns Hcreate Hbody.
  refine (handle_chat_remote_error w _ _ _ _ _ _ st Hkey Hne Hatts Hturns _ _
            Hcreate _).
  intros st0. cbn [api_handler]. unfold bind, lift. now rewrite Hbody.
Qed.

Lemma status_body_failure_escapes_witness :
  snd (chat_with_claude (w_status (inr (JObj [("error", JStr "overloaded")])))
         "Hello" 0 [] st_fresh)
  = inl (AttributeError "'str' object has no attribute 'get'") /\
  exists st' updated,
    handle_chat (w_status (inr (JObj [("error", JStr "overloaded")])))
      "Hello" 0 [] st_fresh
    = (st', inr (updated, [])) /\
    store st' !! updated
    = Some ([] ++
            [("Hello",
              ("Error: "
               ++ str sample_printable (AttributeError "'str' object has no attribute 'get'"))%string)]).
Proof.
  apply (status_body_failure_escapes
           (w_status (inr (JObj [("error", JStr "overloaded")]))) "Hello" 0 []
           [] "sk-test" [] st_fresh 529 "Error code: 529"
           (inr (JObj [("error", JStr "overloaded")]))).
  - reflexivity.
  - discriminate.
  - reflexivity.
  - vm_compute. reflexivity.
  - reflexivity.
  - reflexivity.
Defined.

(** X16: a response without any content block is an error of the turn:
    the index error of the first block is shown as an unexpected error.
    With at least one block the reply is the text of the first block, and
    the other blocks are dropped. *)
Theorem reply_is_first_block (w : World) (message : string) (history : nat)
    (turns : list turn) (files : list File) (key : string)
    (atts : list attachment) (st : state) (resp : response) :
  os_getenv w key_var = Some key -> key <> "" ->
  outcome (process_attachments w files) = inr atts ->
  store st !! history = Some turns ->
  messages_create w key (request_for message atts turns) = inr resp ->
  snd (chat_with_claude w message history files st)
  = match resp_content resp with
    | [] => inl (GrError "Unexpected error: list index out of range")
    | block :: _ => inr (text block)
    end.
Proof.
  intros Hkey Hne Hatts Hturns Hcreate.
  rewrite (chat_sent w _ _ _ _ _ _ st Hkey Hne Hatts Hturns).
  cbn [snd]. rewrite Hcreate. now destruct (resp_content resp).
Qed.

Lemma reply_is_first_block_witness :
  snd (chat_with_claude w_empty_content "Hello" 0 [] st_fresh)
  = match resp_content (mkResponse []) with
    | [] => inl (GrError "Unexpected error: list index out of range")
    | block :: _ => inr (text block)
    end.
Proof.
  apply (reply_is_first_block w_empty_content "Hello" 0 [] [] "sk-test" []
           st_fresh (mkResponse [])).
  - reflexivity.
  - discriminate.
  - reflexivity.
  - vm_compute. reflexivity.
  - reflexivity.
Defined.

(** *** Turn after turn *)

(** X17: two turns in a row, the second on the history that the first
    returned: the last history holds the old turns followed by the two new
    turns in order, and the three list objects (the input history, the
    history after the first turn, the history after the second) are
    different objects that keep their contents. *)
Theorem two_turns_append_in_order (w : World) (m1 m2 : string)
    (history : nat) (turns : list turn) (files1 files2 : list File)
    (st : state) :
  store st !! history = Some turns ->
  exists st1 h1 r1 st2 h2 r2,
    handle_chat w m1 history files1 st = (st1, inr (h1, [])) /\
    handle_chat w m2 h1 files2 st1 = (st2, inr (h2, [])) /\
    store st2 !! h2 = Some (turns ++ [(m1, r1); (m2, r2)]) /\
    store st2 !! h1 = Some (turns ++ [(m1, r1)]) /\
    store st2 !! history = Some turns /\
    h1 <> history /\ h2 <> history /\ h2 <> h1.
Proof.
  intros Hturns.
  pose proof (handle_chat_run w m1 history turns files1 st Hturns) as Hrun1.
  cbv zeta in Hrun1.
  set (r1 := reply_of w (snd (chat_with_claude w m1 history files1 st))) in *.
  set (h1 := fresh (dom (store st))) in *.
  set (st1 := mkState _ _) in Hrun1.
  assert (Hh1 : h1 <> history).
  { intros Heq. apply (is_fresh (dom (store st))). fold h1. rewrite Heq.
    apply elem_of_dom. now exists turns. }
  assert (Hturns1 : store st1 !! h1 = Some (turns ++ [(m1, r1)]))
    by apply lookup_insert_eq.
  assert (Hold1 : store st1 !! history = Some turns).
  { cbn [st1 store]. now rewrite lookup_insert_ne. }
  pose proof (handle_chat_run w m2 h1 _ files2 st1 Hturns1) as Hrun2.
  cbv zeta in Hrun2.
  set (r2 := reply_of w (snd (chat_with_claude w m2 h1 files2 st1))) in *.
  set (h2 := fresh (dom (store st1))) in *.
  set (st2 := mkState _ _) in Hrun2.
  assert (Hfresh2 : forall l v, store st1 !! l = Some v -> h2 <> l).
  { intros l v Hl Heq. apply (is_fresh (dom (store st1))). fold h2.
    rewrite Heq. apply elem_of_dom. now exists v. }
  exists st1, h1, r1, st2, h2, r2.
  split; [exact Hrun1|]. split; [exact Hrun2|].
  split.
  { cbn [st2 store]. rewrite lookup_insert_eq, <- app_assoc. reflexivity. }
  split.
  { cbn [st2 store]. rewrite lookup_insert_ne by (eapply Hfresh2; eassumption).
    exact Hturns1. }
  split.
  { cbn [st2 store]. rewrite lookup_insert_ne by (eapply Hfresh2; eassumption).
    exact Hold1. }
  split; [exact Hh1|].
  split; eapply Hfresh2; eassumption.
Qed.

Lemma two_turns_append_in_order_witness :
  exists st1 h1 r1 st2 h2 r2,
    handle_chat w_flaky "Hello" 0 [] st_fresh = (st1, inr (h1, [])) /\
    handle_chat w_flaky "Again" h1 [] st1 = (st2, inr (h2, [])) /\
    store st2 !! h2 = Some ([] ++ [("Hello", r1); ("Again", r2)]) /\
    store st2 !! h1 = Some ([] ++ [("Hello", r1)]) /\
    store st2 !! 0%nat = Some [] /\
    h1 <> 0%nat /\ h2 <> 0%nat /\ h2 <> h1.
Proof.
  apply (two_turns_append_in_order w_flaky "Hello" "Again" 0 [] [] [] st_fresh).
  vm_compute. reflexivity.
Defined.

(** X18: the text recorded for a turn is sent back to the remote side in
    the next turn as an assistant message, also when it is the text of an
    error: the request of the next turn ends with the user message and
    the recorded text of the turn before. *)
Theorem recorded_text_is_sent_back (w : World) (m1 m2 : string)
    (history : nat) (turns : list turn) (files1 files2 : list File)
    (key : string) (atts : list attachment) (st : state) :
  store st !! history = Some turns ->
  os_getenv w key_var = Some key -> key <> "" ->
  outcome (process_attachments w files2) = inr atts ->
  exists st1 h1 r1 req,
    handle_chat w m1 history files1 st = (st1, inr (h1, [])) /\
    match snd (chat_with_claude w m1 history files1 st) with
    | inr response => r1 = response
    | inl e => r1 = ("Error: " ++ str (isprintable w) e)%string
    end /\
    requests (trace (fst (chat_with_claude w m2 h1 files2 st1)))
    = requests (trace st1) ++ [req] /\
    messages req
    = mkMessage user m2 (Some atts)
      :: flat_map turn_messages turns
         ++ [mkMessage user m1 None; mkMessage assistant r1 None].
Proof.
  intros Hturns Hkey Hne Hatts.
  pose proof (handle_chat_run w m1 history turns files1 st Hturns) as Hrun1.
  cbv zeta in Hrun1.
  set (r1 := reply_of w (snd (chat_with_claude w m1 history files1 st))) in *.
  set (h1 := fresh (dom (store st))) in *.
  set (st1 := mkState _ _) in Hrun1.
  assert (Hturns1 : store st1 !! h1 = Some (turns ++ [(m1, r1)]))
    by apply lookup_insert_eq.
  exists st1, h1, r1, (request_for m2 atts (turns ++ [(m1, r1)])).
  split; [exact Hrun1|].
  split.
  { subst r1. now destruct (snd (chat_with_claude w m1 history files1 st)). }
  rewrite (chat_sent w _ _ _ _ _ _ st1 Hkey Hne Hatts Hturns1).
  cbn [fst record trace request_for messages].
  split.
  - rewrite requests_app.
    change (Getenv key_var :: ?t) with ([Getenv key_var] ++ t).
    rewrite !requests_app.
    unfold process_attachments. rewrite requests_process_loop.
    reflexivity.
  - now rewrite flat_map_app.
Qed.

Lemma recorded_text_is_sent_back_witness :
  exists st1 h1 r1 req,
    handle_chat w_flaky "Hello" 0 [] st_fresh = (st1, inr (h1, [])) /\
    match snd (chat_with_claude w_flaky "Hello" 0 [] st_fresh) with
    | inr response => r1 = response
    | inl e => r1 = ("Error: " ++ str (isprintable w_flaky) e)%string
    end /\
    requests (trace (fst (chat_with_claude w_flaky "Again" h1 [] st1)))
    = requests (trace st1) ++ [req] /\
    messages req
    = mkMessage user "Again" (Some [])
      :: flat_map turn_messages []
         ++ [mkMessage user "Hello" None; mkMessage assistant r1 None].
Proof.
  apply (recorded_text_is_sent_back w_flaky "Hello" "Again" 0 [] [] []
           "sk-test" [] st_fresh).
  - vm_compute. reflexivity.
  - reflexivity.
  - discriminate.
  - reflexivity.
Defined.

(** The second request of the run above carries the error text of the
    first turn, and the remote side answers it. *)
Example error_text_in_next_request :
  let run1 := handle_chat w_flaky "Hello" 0 [] st_fresh in
  let run2 := handle_chat w_flaky "Again" 1 [] (fst run1) in
  store (fst run2) !! 2%nat
  = Some [("Hello",
           "Error: 'Rate limit exceeded: Please wait before sending new messages'");
          ("Again", "Hi again")]
  /\ map messages (requests (trace (fst run2)))
     = [[mkMessage user "Hello" (Some [])];
        [mkMessage user "Again" (Some []);
         mkMessage user "Hello" None;
         mkMessage assistant
           "Error: 'Rate limit exceeded: Please wait before sending new messages'"
           None]].
Proof. split; vm_compute; reflexivity. Qed.

End Extras.
